(** * IAM lifecycle demo: the reconciliation core

    A shallow embedding of
      - [app/services/identity_engine.py] (policy evaluation),
      - [app/services/diff.py]            (the diff),
      - [app/services/provisioner/*.py]   (the in-memory adapters),
      - [app/workers/tasks.py]            (the sync run),
    together with the properties of the specification that concern them. *)

From Stdlib Require Import Ascii.
From stdpp Require Import gmap strings list fin_maps sorting.

#[local] Set Warnings "-clear-no-such-hyp".

(** ** Python strings

    A Python [str] is modelled as a Rocq [string] whose characters are the
    code points below 256. *)

Module Py.

(** The double quote and the single quote: the two characters that
    [_safe_eval_rule] strips from the ends of a literal. *)
Definition dq : string := String "034"%char "".
Definition sq : string := "'".

Definition is_quote (c : ascii) : bool :=
  bool_decide (c = "034"%char) || bool_decide (c = "'"%char).

(** [str.isspace] on one character: U+0009..U+000D, U+001C..U+0020,
    U+0085 and U+00A0. *)
Definition isspace (c : ascii) : bool :=
  let n := nat_of_ascii c in
  ((9 <=? n) && (n <=? 13)) || ((28 <=? n) && (n <=? 32))
  || (n =? 133) || (n =? 160).

Definition is_empty (s : string) : bool :=
  match s with EmptyString => true | String _ _ => false end.

(** [s.lstrip(p)], [s.rstrip(p)] and [s.strip(p)] for a set of characters
    given by its membership test [p]. *)
Fixpoint lstrip (p : ascii → bool) (s : string) : string :=
  match s with
  | EmptyString => EmptyString
  | String c r => if p c then lstrip p r else s
  end.

Fixpoint rstrip (p : ascii → bool) (s : string) : string :=
  match s with
  | EmptyString => EmptyString
  | String c r =>
      let r' := rstrip p r in
      if is_empty r' && p c then EmptyString else String c r'
  end.

Definition strip_with (p : ascii → bool) (s : string) : string :=
  rstrip p (lstrip p s).

(** [s.strip()] *)
Definition strip (s : string) : string := strip_with isspace s.

(** [s.strip(q)] for [q] the string of the two quote characters *)
Definition strip_quotes (s : string) : string := strip_with is_quote s.

(** [str.lower] on one character: A..Z, and the upper-case letters of
    Latin-1 (U+00C0..U+00DE without the multiplication sign U+00D7). *)
Definition lower_char (c : ascii) : ascii :=
  let n := nat_of_ascii c in
  if ((65 <=? n) && (n <=? 90))
     || ((192 <=? n) && (n <=? 222) && negb (n =? 215))
  then ascii_of_nat (n + 32) else c.

Fixpoint lower (s : string) : string :=
  match s with
  | EmptyString => EmptyString
  | String c r => String (lower_char c) (lower r)
  end.

Fixpoint drop (n : nat) (s : string) : string :=
  match n, s with
  | O, _ => s
  | S n', String _ r => drop n' r
  | S _, EmptyString => EmptyString
  end.

(** [s.partition(sep)]: the text before and after the first occurrence of
    [sep], when there is one.  [sep in s] is [is_Some (partition sep s)],
    and [s.split(sep, 1)] is the pair it holds. *)
Fixpoint partition (sep s : string) : option (string * string) :=
  if String.prefix sep s then Some (EmptyString, drop (String.length sep) s)
  else match s with
       | EmptyString => None
       | String c r =>
           match partition sep r with
           | Some (l, r') => Some (String c l, r')
           | None => None
           end
       end.

(** Vocabulary for statements about strings: every character of [s]
    satisfies [p]; the first and the last character of [s]. *)
Fixpoint all_chars (p : ascii → bool) (s : string) : bool :=
  match s with
  | EmptyString => true
  | String c r => p c && all_chars p r
  end.

Definition first_char (s : string) : option ascii :=
  match s with EmptyString => None | String c _ => Some c end.

Fixpoint last_char (s : string) : option ascii :=
  match s with
  | EmptyString => None
  | String c r => match last_char r with None => Some c | Some d => Some d end
  end.

(** [s] neither begins nor ends with a character of [p]. *)
Definition clean_ends (p : ascii → bool) (s : string) : bool :=
  match first_char s, last_char s with
  | Some c, Some d => negb (p c) && negb (p d)
  | _, _ => true
  end.

Definition not_equals_sign (c : ascii) : bool :=
  negb (bool_decide (c = "="%char)).

(** [x or ""] for [x] a string or [None]. *)
Definition or_empty (x : option string) : string := default "" x.

(** [set(l)] and [sorted(X)] on strings; Python orders strings by code
    point, as [String.le] does. *)
Definition set (l : list string) : gset string := list_to_set l.
Definition sorted (X : gset string) : list string :=
  merge_sort String.le (elements X).
Definition sort (l : list string) : list string := merge_sort String.le l.

End Py.

(** ** Entitlement sets and the diff (app/services/diff.py) *)

(** [{"google": {"groups": [...]}, "github": {"teams": [...]}}]:
    system name, then entitlement kind, then the list of names. *)
Abbreviation EntSet := (gmap string (gmap string (list string))).

(** [e.get(sys, {}).get(kind, [])] *)
Definition get_names (e : EntSet) (sys kind : string) : list string :=
  default [] (default ∅ (e !! sys) !! kind).

(** An action of a plan.  In the source it is the dict
    [{"target": t, "action": a, k: n}] where the key [k] of the name is
    ["group"] for the actions [add_group]/[remove_group] and ["team"] for
    [add_team]/[remove_team]; the record keeps the name and leaves the key to
    the action. *)
Record Change := mkChange { target : string; action : string; name : string }.

Global Instance Change_eq_dec : EqDecision Change.
Proof. solve_decision. Defined.

Definition plan_changes (desired current : EntSet) : list Change :=
  let actions : list Change := [] in
  (* Google groups *)
  let d_groups := Py.set (get_names desired "google" "groups") in
  let c_groups := Py.set (get_names current "google" "groups") in
  let actions :=
    actions ++ (mkChange "google" "add_group" <$> Py.sorted (d_groups ∖ c_groups)) in
  let actions :=
    actions ++ (mkChange "google" "remove_group" <$> Py.sorted (c_groups ∖ d_groups)) in
  (* GitHub teams *)
  let d_teams := Py.set (get_names desired "github" "teams") in
  let c_teams := Py.set (get_names current "github" "teams") in
  let actions :=
    actions ++ (mkChange "github" "add_team" <$> Py.sorted (d_teams ∖ c_teams)) in
  let actions :=
    actions ++ (mkChange "github" "remove_team" <$> Py.sorted (c_teams ∖ d_teams)) in
  actions.

(** ** The identity engine (app/services/identity_engine.py) *)

(** Exceptions, and the outcome of a call that may raise. *)
Inductive exn := AttributeError | ProvisionerError.

Inductive result (A : Type) :=
| Ok (a : A)
| Raise (e : exn).
Global Arguments Ok {A} a.
Global Arguments Raise {A} e.

(** The value found under [when] in a rule of the YAML policy: a string, or
    something that is not one ([when:] left empty loads as [None]). *)
Inductive pyval := PyNone | PyStr (s : string).

(** A dict from strings to [str] or [None]: a user record, a rule context. *)
Abbreviation StrDict := (gmap string (option string)).

(** [d.get(k)] *)
Definition py_get (d : StrDict) (k : string) : option string :=
  default None (d !! k).

(** A grant has the shape of an entitlement set. *)
Abbreviation Grant := (gmap string (gmap string (list string))).

(** A rule.  [when] is [rule.get("when", "")] and [grant] is
    [rule.get("grant", {})]: a missing key is its default. *)
Record Rule := mkRule { when : pyval; grant : Grant }.

(** The loaded configuration: [roles] is [cfg.get("roles", {})] and [rules]
    is [cfg.get("rules", [])]. *)
Record Policy := mkPolicy { roles : gmap string Grant; rules : list Rule }.

Module IdentityEngine.

Definition _safe_eval_rule (rule_expr : pyval) (context : StrDict) : result bool :=
  match rule_expr with
  | PyNone => Raise AttributeError (* None has no strip *)
  | PyStr rule_expr =>
      (* Remove whitespace *)
      let rule_expr := Py.strip rule_expr in
      match Py.partition " == " rule_expr with
      | Some (field, value) =>
          let field := Py.strip field in
          let value := Py.strip_quotes (Py.strip value) in
          Ok (bool_decide (py_get context field = Some value))
      | None =>
          match Py.partition " != " rule_expr with
          | Some (field, value) =>
              let field := Py.strip field in
              let value := Py.strip_quotes (Py.strip value) in
              Ok (negb (bool_decide (py_get context field = Some value)))
          | None =>
              (* Unsupported rule format *)
              Ok false
          end
      end
  end.

(** [desired.setdefault(sys, {}).setdefault(k, []); desired[sys][k] += v] *)
Definition extend (desired : EntSet) (sys k : string) (v : list string) : EntSet :=
  let parts := default ∅ (desired !! sys) in
  <[ sys := <[ k := default [] (parts !! k) ++ v ]> parts ]> desired.

(** The two loops over [grant.items()] and [parts.items()].  Each pair
    [(sys, k)] is visited once and touches only [desired[sys][k]], so the
    order of the visits does not show in the result. *)
Definition apply_grant (grant : Grant) (desired : EntSet) : EntSet :=
  map_fold (λ sys parts d, map_fold (λ k v d, extend d sys k v) d parts)
           desired grant.

Definition rule_context (user : StrDict) : StrDict :=
  {[ "location" := py_get user "location";
     "employment_type" := py_get user "employment_type";
     "department" := py_get user "department";
     "title" := py_get user "title";
     "status" := py_get user "status" ]}.

(** One turn of the loop over the rules, with its [try]/[except]. *)
Definition rule_step (user : StrDict) (desired : EntSet) (rule : Rule) : EntSet :=
  let ctx := rule_context user in
  match _safe_eval_rule (when rule) ctx with
  | Ok true => apply_grant (grant rule) desired
  | Ok false => desired
  | Raise _ => desired (* except Exception: continue *)
  end.

(** normalize uniques *)
Definition normalize (desired : EntSet) : EntSet :=
  fmap (M := gmap string) (fmap (M := gmap string) (λ l, Py.sorted (Py.set l))) desired.

Definition empty_desired : EntSet :=
  {[ "google" := {[ "groups" := [] ]}; "github" := {[ "teams" := [] ]} ]}.

Definition desired_for_user (cfg : Policy) (user : StrDict) : EntSet :=
  let desired := empty_desired in
  (* CRITICAL: Terminated users should have NO access *)
  let user_status := Py.strip (Py.or_empty (py_get user "status")) in
  if bool_decide (Py.lower user_status = "terminated") then desired
  else
    let dept := Py.strip (Py.or_empty (py_get user "department")) in
    let desired :=
      match roles cfg !! dept with
      | Some role =>
          let desired :=
            extend desired "google" "groups" (get_names role "google" "groups") in
          extend desired "github" "teams" (get_names role "github" "teams")
      | None => desired
      end in
    let desired := foldl (rule_step user) desired (rules cfg) in
    normalize desired.

End IdentityEngine.

(** ** The Python store

    The adapters keep their lists in module-level dicts and hand the very same
    list objects to their callers, so lists live in a store and are named by
    their location.  [heap w !! l] is the content of the list object [l]. *)

Abbreviation loc := nat.

(** [google_STATE] is [_STATE] of [google_ws_mock.py] and [github_STATE] is
    [_STATE] of [github_mock.py].  An entry [email ↦ {"groups": obj}] is kept as
    [email ↦ l] with [l] the location of the list object [obj]: the inner dict
    is created by [setdefault] with its one key and is never handed out. *)
Record World := mkWorld {
  heap : list (list string);
  google_STATE : gmap string loc;
  github_STATE : gmap string loc;
}.

Definition empty_world : World := mkWorld [] ∅ ∅.

(** A dict whose leaves are list objects, as [fetch_current] returns it. *)
Abbreviation RefSet := (gmap string (gmap string loc)).

(** The content of a list object. *)
Definition read (w : World) (l : loc) : list string := default [] (heap w !! l).

Definition write (l : loc) (v : list string) (w : World) : World :=
  mkWorld (<[ l := v ]> (heap w)) (google_STATE w) (github_STATE w).

(** A new list object. *)
Definition alloc (v : list string) (w : World) : loc * World :=
  (length (heap w), mkWorld (heap w ++ [v]) (google_STATE w) (github_STATE w)).

(** The lists of a [RefSet] as they are in the store [w]. *)
Definition deref (w : World) (r : RefSet) : EntSet :=
  fmap (M := gmap string) (fmap (M := gmap string) (read w)) r.

(** Computations on the store that may raise.  The store reached when an
    exception is raised is kept: what was mutated stays mutated. *)
Definition M (A : Type) : Type := World → result A * World.

Global Instance M_ret : MRet M := λ A a w, (Ok a, w).
Global Instance M_bind : MBind M := λ A B k m w,
  match m w with
  | (Ok a, w') => k a w'
  | (Raise e, w') => (Raise e, w')
  end.

Definition raise {A} (e : exn) : M A := λ w, (Raise e, w).
Definition get_world : M World := λ w, (Ok w, w).
Definition lift {A} (f : World → A * World) : M A := λ w, let '(a, w') := f w in (Ok a, w').

(** ** The adapters (app/services/provisioner) *)

(** [ProvisionerBase]: the two abstract methods. *)
Record ProvisionerBase := mkProvisioner {
  fetch_current : string → M RefSet;
  apply : string → list Change → M (list Change);
}.

(** [l.remove(x)] for [x] in [l]: the first occurrence goes. *)
Fixpoint list_remove_first (x : string) (l : list string) : list string :=
  match l with
  | [] => []
  | y :: l' => if decide (x = y) then l' else y :: list_remove_first x l'
  end.

(** The two in-memory adapters are the same code up to their names. *)
Inductive adapter := Google | GitHub.

Global Instance adapter_eq_dec : EqDecision adapter.
Proof. solve_decision. Defined.

Module Mock.

Definition system (a : adapter) : string :=
  match a with Google => "google" | GitHub => "github" end.
Definition kind (a : adapter) : string :=
  match a with Google => "groups" | GitHub => "teams" end.
Definition add_action (a : adapter) : string :=
  match a with Google => "add_group" | GitHub => "add_team" end.
Definition remove_action (a : adapter) : string :=
  match a with Google => "remove_group" | GitHub => "remove_team" end.

(** The module's [_STATE]. *)
Definition _STATE (a : adapter) (w : World) : gmap string loc :=
  match a with Google => google_STATE w | GitHub => github_STATE w end.
Definition set_STATE (a : adapter) (st : gmap string loc) (w : World) : World :=
  match a with
  | Google => mkWorld (heap w) st (github_STATE w)
  | GitHub => mkWorld (heap w) (google_STATE w) st
  end.

Definition fetch_current (a : adapter) (user_email : string) (w : World)
  : RefSet * World :=
  (* user = _STATE.get(user_email, {kind: []}) *)
  let '(user, w) :=
    match _STATE a w !! user_email with
    | Some l => (l, w)
    | None => alloc [] w
    end in
  ({[ system a := {[ kind a := user ]} ]}, w).

(** The body of the loop of [apply] on the content of [user[kind]]. *)
Definition apply_one (a : adapter) (names : list string) (p : Change) : list string :=
  if bool_decide (target p ≠ system a) then names (* continue *)
  else
    let names :=
      if bool_decide (action p = add_action a) then
        if bool_decide (name p ∉ names) then names ++ [name p] else names
      else names in
    let names :=
      if bool_decide (action p = remove_action a) then
        if bool_decide (name p ∈ names) then list_remove_first (name p) names
        else names
      else names in
    names.

Definition apply (a : adapter) (user_email : string) (plan : list Change) (w : World)
  : list Change * World :=
  (* user = _STATE.setdefault(user_email, {kind: []}) *)
  let '(user, w) :=
    match _STATE a w !! user_email with
    | Some l => (l, w)
    | None =>
        let '(l, w) := alloc [] w in
        (l, set_STATE a (<[ user_email := l ]> (_STATE a w)) w)
    end in
  let w := write user (foldl (apply_one a) (read w user) plan) w in
  (* user[kind].sort() *)
  let w := write user (Py.sort (read w user)) w in
  (plan, w).

End Mock.

Definition GoogleWSMock : ProvisionerBase :=
  mkProvisioner (λ user_email, lift (Mock.fetch_current Google user_email))
                (λ user_email plan, lift (Mock.apply Google user_email plan)).

Definition GitHubMock : ProvisionerBase :=
  mkProvisioner (λ user_email, lift (Mock.fetch_current GitHub user_email))
                (λ user_email plan, lift (Mock.apply GitHub user_email plan)).

(** ** The sync run (app/workers/tasks.py) *)

(** A row of the table [users]; the columns the run reads.  [None] is NULL. *)
Record User := mkUser {
  email : string;
  department : option string;
  title : option string;
  location : option string;
  employment_type : option string;
  status : option string;
}.

(** The value of [is_terminated and has_current_access]: [False], or the list
    object that [has_current_access] is. *)
Inductive pyobj := PyFalse | PyList (l : loc).

(** An entry of [results].  [current] and [access_cleared] hold list
    objects, not copies of them.  [user_status] is [u.status]; it is a string
    in every entry, since the turn of a row whose status is NULL raises before
    its entry is built. *)
Record UserResult := mkUserResult {
  r_user : string;
  r_user_status : string;
  r_desired : EntSet;
  r_current : RefSet;
  r_plan : list Change;
  r_access_cleared : pyobj;
}.

Record Summary := mkSummary {
  s_count : nat;
  s_processed : nat;
  s_access_cleared : nat;
  s_terminated_users_processed : nat;
}.

(** The row of the table [runs]; [completed] stands for [completed_at] being
    set. *)
Record Run := mkRun {
  run_dry_run : bool;
  run_completed : bool;
  run_summary : option Summary;
}.

(** What [run_sync_task] returns, next to the run id. *)
Record SyncReturn := mkSyncReturn {
  ret_results : list UserResult;
  ret_summary : Summary;
}.

(** [current.get(sys, {}).get(kind, [])]: the list object found, or a new
    empty one. *)
Definition get_list (current : RefSet) (sys kind : string) : M loc :=
  match default ∅ (current !! sys) !! kind with
  | Some l => mret l
  | None => lift (alloc [])
  end.

(** The truth value of a list object. *)
Definition truthy (w : World) (l : loc) : bool :=
  negb (bool_decide (read w l = [])).

Section run_sync.

Variables (google github : ProvisionerBase).
Variable (cfg : Policy).
Variable (dry_run : bool).

(** One turn of the loop [for u in db.query(User).all()], on the counter
    [access_cleared] and the list [results]. *)
Definition sync_user (acc : nat * list UserResult) (u : User)
  : M (nat * list UserResult) :=
  let '(access_cleared, results) := acc in
  let user_dict : StrDict :=
    {[ "email" := Some (email u);
       "department" := department u;
       "title" := title u;
       "location" := location u;
       "employment_type" := employment_type u;
       "status" := status u ]} in
  let desired := IdentityEngine.desired_for_user cfg user_dict in
  let current : RefSet := ∅ in
  g ← fetch_current google (email u);
  let current := g ∪ current in
  h ← fetch_current github (email u);
  let current := h ∪ current in
  w ← get_world;
  let plan := plan_changes desired (deref w current) in
  (* Track if this is a terminated user having access cleared *)
  user_status ←
    match status u with
    | Some st => mret st
    | None => raise AttributeError (* None has no lower *)
    end;
  let is_terminated := bool_decide (Py.lower user_status = "terminated") in
  groups ← get_list current "google" "groups";
  w ← get_world;
  has_current_access ←
    (if truthy w groups then mret groups
     else get_list current "github" "teams");
  w ← get_world;
  let access_cleared :=
    if is_terminated && truthy w has_current_access
    then access_cleared + 1 else access_cleared in
  _ ← (if negb dry_run then
         _ ← apply google (email u) plan;
         _ ← apply github (email u) plan;
         mret ()
       else mret ());
  let access_cleared_value :=
    if is_terminated then PyList has_current_access else PyFalse in
  mret (access_cleared,
        results ++ [mkUserResult (email u) user_status desired current plan
                      access_cleared_value]).

(** The loop: an exception leaves it at once. *)
Fixpoint sync_users (acc : nat * list UserResult) (users : list User)
  : M (nat * list UserResult) :=
  match users with
  | [] => mret acc
  | u :: users' =>
      acc' ← sync_user acc u;
      sync_users acc' users'
  end.

Definition is_terminated_result (r : UserResult) : bool :=
  bool_decide (Py.lower (r_user_status r) = "terminated").

(** The outcome of a run: what the task returns or raises, the store it
    leaves, and its row in [runs] as last committed. *)
Record Outcome := mkOutcome {
  returned : result SyncReturn;
  final_world : World;
  run_row : Run;
}.

Definition run_sync (users : list User) (w : World) : Outcome :=
  (* run = Run(dry_run=dry_run); db.add(run); db.commit() *)
  let run := mkRun dry_run false None in
  match sync_users (0, []) users w with
  | (Raise e, w') => mkOutcome (Raise e) w' run
  | (Ok (access_cleared, results), w') =>
      let summary :=
        mkSummary (length results) (length results) access_cleared
          (length (filter (λ r, is_terminated_result r = true) results)) in
      mkOutcome (Ok (mkSyncReturn results summary)) w'
                (mkRun dry_run true (Some summary))
  end.

End run_sync.

(** [run_sync_task]: the run with the two in-memory adapters. *)
Definition run_sync_task (cfg : Policy) (dry_run : bool)
    (users : list User) (w : World) : Outcome :=
  run_sync GoogleWSMock GitHubMock cfg dry_run users w.

(** A result as its reader finds it once the task has returned: every list
    object replaced by its content at that time. *)
Record SeenResult := mkSeenResult {
  seen_user : string;
  seen_user_status : string;
  seen_desired : EntSet;
  seen_current : EntSet;
  seen_plan : list Change;
  seen_access_cleared : option (list string);
}.

Definition seen (w : World) (r : UserResult) : SeenResult :=
  mkSeenResult (r_user r) (r_user_status r) (r_desired r)
    (deref w (r_current r)) (r_plan r)
    (match r_access_cleared r with
     | PyFalse => None
     | PyList l => Some (read w l)
     end).

Definition seen_results (o : Outcome) : option (list SeenResult) :=
  match returned o with
  | Ok r => Some (seen (final_world o) <$> ret_results r)
  | Raise _ => None
  end.

(** ** Vocabulary of the statements *)

(** [e[sys][k]] exists. *)
Definition has_entry (e : EntSet) (sys k : string) : Prop :=
  is_Some (e !! sys ≫= (.!! k)).

(** The two lists hold the same set of names. *)
Definition same_names (l k : list string) : Prop := ∀ x, x ∈ l ↔ x ∈ k.

(** [l] is the sorted enumeration, without repetition, of the names of [d]
    that are not in [c]. *)
Definition sorted_difference (l d c : list string) : Prop :=
  Sorted String.le l ∧ NoDup l ∧ ∀ x, x ∈ l ↔ x ∈ d ∧ x ∉ c.

(** The two entitlement sets agree on every system and kind that either of
    them has. *)
Definition agree_everywhere (desired current : EntSet) : Prop :=
  ∀ sys kind,
    has_entry desired sys kind ∨ has_entry current sys kind →
    same_names (get_names desired sys kind) (get_names current sys kind).

(** The names an action takes out of the question for the adapter [a], and
    the names it puts in. *)
Definition taken (a : adapter) (p : Change) : gset string :=
  if bool_decide (target p = Mock.system a
                  ∧ (action p = Mock.add_action a ∨ action p = Mock.remove_action a))
  then {[ name p ]} else ∅.

Definition given (a : adapter) (p : Change) : gset string :=
  if bool_decide (target p = Mock.system a ∧ action p = Mock.add_action a)
  then {[ name p ]} else ∅.

(** The adapter of a name. *)
Definition mock (a : adapter) : ProvisionerBase :=
  match a with Google => GoogleWSMock | GitHub => GitHubMock end.

(** The store a computation leaves. *)
Definition store_after {A} (m : M A) (w : World) : World := (m w).2.

(** The adapter [a] has the list [names] on record for [user_email]. *)
Definition recorded (a : adapter) (user_email : string) (w : World)
    (names : list string) : Prop :=
  ∃ l, Mock._STATE a w !! user_email = Some l ∧ heap w !! l = Some names.

(** The stores the program can be in: it starts with both [_STATE] dicts
    empty, and from then on the adapters are called and lists are created. *)
Inductive reachable : World → Prop :=
| reachable_empty : reachable empty_world
| reachable_fetch a user_email w :
    reachable w → reachable (store_after (fetch_current (mock a) user_email) w)
| reachable_apply a user_email plan w :
    reachable w → reachable (store_after (apply (mock a) user_email plan) w)
| reachable_alloc v w :
    reachable w → reachable (alloc v w).2.

(** What holds of every such store: a recorded list is in the store, is
    sorted and has no name twice. *)
Definition adapter_ok (w : World) : Prop :=
  ∀ a user_email l,
    Mock._STATE a w !! user_email = Some l →
    ∃ names, heap w !! l = Some names ∧ NoDup names ∧ Sorted String.le names.

(** ** The grammar of predicates, as the specification words it *)

(** [<field> == "<literal>"] and [<field> != "<literal>"], read as widely as
    the words allow: any text for the field and for the literal, either quote,
    any whitespace around the three parts. *)
Definition supported_form (s : string) : Prop :=
  ∃ pre f a op b q v post : string,
    s = pre +:+ f +:+ a +:+ op +:+ b +:+ q +:+ v +:+ q +:+ post
    ∧ (op = "==" ∨ op = "!=")
    ∧ (q = Py.dq ∨ q = Py.sq)
    ∧ Py.all_chars Py.isspace pre = true ∧ Py.all_chars Py.isspace a = true
    ∧ Py.all_chars Py.isspace b = true ∧ Py.all_chars Py.isspace post = true.

(** The operator as [_safe_eval_rule] looks for it, and the comparison it
    stands for. *)
Definition operator (ne : bool) : string := if ne then " != " else " == ".

Definition compare_with (ne : bool) (x : option string) (v : string) : bool :=
  if ne then negb (bool_decide (x = Some v)) else bool_decide (x = Some v).

(** ** Sample data *)

Module Sample.

(** [location=="Remote"], without a space around the operator. *)
Definition tight_predicate : string :=
  "location==" +:+ Py.dq +:+ "Remote" +:+ Py.dq.

(** [(location != "Remote")], a comparison inside brackets. *)
Definition bracketed_predicate : string :=
  "(location != " +:+ Py.dq +:+ "Remote" +:+ Py.dq +:+ ")".

(** [ location  == "Remote"] *)
Definition remote_predicate : string :=
  "location == " +:+ Py.dq +:+ "Remote" +:+ Py.dq.

Definition engineering_role : Grant :=
  {[ "google" := {[ "groups" := ["eng@x.com"] ]} ]}.

Definition policy : Policy :=
  mkPolicy {[ "Engineering" := engineering_role ]}
    [ mkRule (PyStr remote_predicate)
        {[ "github" := {[ "teams" := ["remote-access"] ]} ]} ].

(** A policy whose second rule is the bracketed one, between a rule that
    cannot be evaluated and a plain one. *)
Definition bracketed_policy : Policy :=
  mkPolicy {[ "Engineering" := engineering_role ]}
    [ mkRule PyNone {[ "github" := {[ "teams" := ["never"] ]} ]};
      mkRule (PyStr bracketed_predicate)
        {[ "github" := {[ "teams" := ["onsite"] ]} ]};
      mkRule (PyStr remote_predicate)
        {[ "github" := {[ "teams" := ["remote-access"] ]} ]} ].

(** A rule that grants a channel of a third system. *)
Definition slack_policy : Policy :=
  mkPolicy {[ "Engineering" := engineering_role ]}
    [ mkRule (PyStr remote_predicate)
        {[ "slack" := {[ "channels" := ["general"] ]} ]} ].

Definition remote_engineer : StrDict :=
  {[ "department" := Some "Engineering"; "status" := Some "Active";
     "location" := Some "Remote" ]}.

Definition terminated_engineer : StrDict :=
  {[ "department" := Some "Engineering"; "status" := Some " TERMINATED ";
     "location" := Some "Remote" ]}.

(** A store in which the Google adapter has one identity on record. *)
Definition seeded_world : World :=
  store_after
    (apply (mock Google) "a@x.com" [mkChange "google" "add_group" "eng@x.com"])
    empty_world.

(** A plan that removes a name, adds it again, and adds a lesser one. *)
Definition mixed_plan : list Change :=
  [ mkChange "google" "remove_group" "y@x.com";
    mkChange "google" "add_group" "y@x.com";
    mkChange "github" "add_team" "backend";
    mkChange "google" "add_group" "b@x.com" ].

(** The row of the engineer, with the status given. *)
Definition engineer_row (st : string) : User :=
  mkUser "a@x.com" (Some "Engineering") (Some "SE") (Some "Remote")
    (Some "FullTime") (Some st).

(** The store after a live run that provisions the active engineer. *)
Definition provisioned_world : World :=
  final_world (run_sync_task policy false [engineer_row "Active"] empty_world).

(** The dry and the live run, from that store, once the engineer is
    terminated. *)
Definition dry_outcome : Outcome :=
  run_sync_task policy true [engineer_row "Terminated"] provisioned_world.

Definition live_outcome : Outcome :=
  run_sync_task policy false [engineer_row "Terminated"] provisioned_world.

Definition revocation_plan : list Change :=
  [ mkChange "google" "remove_group" "eng@x.com";
    mkChange "github" "remove_team" "remote-access" ].




(** What the slack policy wants for the remote engineer, and what the two
    adapters report for an engineer who is in the engineering group. *)
Definition slack_desired : EntSet :=
  IdentityEngine.desired_for_user slack_policy remote_engineer.

Definition slack_current : EntSet :=
  {[ "google" := {[ "groups" := ["eng@x.com"] ]};
     "github" := {[ "teams" := [] ]} ]}.

End Sample.

(** ** Vocabulary of the further properties *)

(** The rule fires for the user: its predicate evaluates to true in the
    context built from the user. *)
Definition fires (user : StrDict) (rule : Rule) : Prop :=
  IdentityEngine._safe_eval_rule (when rule) (IdentityEngine.rule_context user)
  = Ok true.

(** The test that opens [desired_for_user]. *)
Definition is_terminated_user (user : StrDict) : Prop :=
  Py.lower (Py.strip (Py.or_empty (py_get user "status"))) = "terminated".

(** The role that [desired_for_user] finds for the user, if any. *)
Definition role_of (cfg : Policy) (user : StrDict) : option Grant :=
  roles cfg !! Py.strip (Py.or_empty (py_get user "department")).

(** The two places of an entitlement set that a role can fill. *)
Definition role_place (sys k : string) : Prop :=
  (sys = "google" ∧ k = "groups") ∨ (sys = "github" ∧ k = "teams").

(** What the adapter [a] has on record for an identity, as [fetch_current]
    reads it: [_STATE.get(user_email, {kind: []}).get(kind, [])]. *)
Definition on_record (a : adapter) (user_email : string) (w : World) : list string :=
  match Mock._STATE a w !! user_email with
  | Some l => read w l
  | None => []
  end.

(** The action concerns the adapter [a]: it has its target and one of its two
    action names. *)
Definition relevant (a : adapter) (p : Change) : Prop :=
  target p = Mock.system a
  ∧ (action p = Mock.add_action a ∨ action p = Mock.remove_action a).

Global Instance relevant_dec a p : Decision (relevant a p).
Proof. unfold relevant. apply _. Defined.

(** No two records share their list object. *)
Definition separate (w : World) : Prop :=
  ∀ a user_email a' user_email' l,
    Mock._STATE a w !! user_email = Some l →
    Mock._STATE a' w !! user_email' = Some l →
    a = a' ∧ user_email = user_email'.

(** The effect of one action on the set of names of a list. *)
Definition set_step (a : adapter) (S : gset string) (p : Change) : gset string :=
  (S ∖ taken a p) ∪ given a p.

(** The dict that [run_sync_task] builds from a row. *)
Definition row_dict (u : User) : StrDict :=
  {[ "email" := Some (email u);
     "department" := department u;
     "title" := title u;
     "location" := location u;
     "employment_type" := employment_type u;
     "status" := status u ]}.

(** The store after the two [fetch_current] calls of a turn. *)
Definition fetched (user_email : string) (w : World) : World :=
  (Mock.fetch_current GitHub user_email
     (Mock.fetch_current Google user_email w).2).2.

(** The store after the two [apply] calls of a live turn. *)
Definition applied (user_email : string) (plan : list Change) (w : World) : World :=
  (Mock.apply GitHub user_email plan (Mock.apply Google user_email plan w).2).2.

(** The names that the policy wants the adapter [a] to hold for a row. *)
Definition wanted (cfg : Policy) (a : adapter) (u : User) : list string :=
  get_names (IdentityEngine.desired_for_user cfg (row_dict u))
    (Mock.system a) (Mock.kind a).

(** The result counts as one of a terminated user in the summary. *)
Definition counted_terminated (r : UserResult) : Prop :=
  is_terminated_result r = true.

(** ** Access control (app/core/security.py) *)

(** A handler returns, or raises [HTTPException(status_code)]. *)
Inductive http (A : Type) :=
| Http200 (a : A)
| HttpError (status_code : nat).
Global Arguments Http200 {A} a.
Global Arguments HttpError {A} status_code.

Record TokenData := mkTokenData { username : string; scopes : list string }.

(** The payload of a token as [get_current_user] reads it: [payload.get("sub")]
    and [payload.get("scopes", [])].  The payloads are those that [login]
    signs: the subject is a string and the scopes are a list of strings. *)
Record Payload := mkPayload { sub : option string; payload_scopes : list string }.

Module Security.

Section with_jwt.

(** [jwt.decode(token, SECRET_KEY, algorithms=[ALGORITHM])]: the payload, or
    [None] when the library raises [PyJWTError]. *)
Variable jwt_decode : string → option Payload.

Definition get_current_user (credentials : option string) : http TokenData :=
  match credentials with
  | None =>
      (* For demo purposes, allow some endpoints without auth *)
      Http200 (mkTokenData "anonymous" ["read"])
  | Some token =>
      match jwt_decode token with
      | Some payload =>
          match sub payload with
          | None => HttpError 401
          | Some username => Http200 (mkTokenData username (payload_scopes payload))
          end
      | None => HttpError 401
      end
  end.

(** The inner function [check_scopes] of [require_scopes]. *)
Definition check_scopes (required_scopes : list string) (current_user : TokenData)
  : http TokenData :=
  if existsb (λ scope, bool_decide (scope ∈ scopes current_user)) required_scopes
  then Http200 current_user
  else HttpError 403.

(** [require_scopes(required_scopes)] as a dependency: [check_scopes] on what
    [get_current_user] returns. *)
Definition require_scopes (required_scopes : list string)
    (credentials : option string) : http TokenData :=
  match get_current_user credentials with
  | Http200 current_user => check_scopes required_scopes current_user
  | HttpError status_code => HttpError status_code
  end.

Definition require_read := require_scopes ["read"; "admin"].
Definition require_write := require_scopes ["write"; "admin"].
Definition require_admin := require_scopes ["admin"].

End with_jwt.

End Security.

(** ** The audit helpers (app/services/audit.py) *)

Module Audit.

Definition MASK : string := "***".

(** Vocabulary: the character is not the separator of an address. *)
Definition not_at (c : ascii) : bool := negb (bool_decide (c = "@"%char)).

(** [s[:n]] *)
Fixpoint take (n : nat) (s : string) : string :=
  match n, s with
  | S n', String c r => String c (take n' r)
  | _, _ => EmptyString
  end.

Definition mask_email (s : option string) : string :=
  match s with
  | None => ""
  | Some s =>
      if Py.is_empty s then ""
      else
        (* name, _, domain = s.partition("@") *)
        let '(name, domain) :=
          match Py.partition "@" s with
          | Some (name, domain) => (name, domain)
          | None => (s, "")
          end in
        if Py.is_empty domain then MASK
        else take 2 name +:+ "***@" +:+ domain
  end.

End Audit.

(** ** The policy endpoints (app/api/v1/routes_rbac.py)

    Each handler loads the configuration, changes it in memory and hands it
    to [save_config].  The model is that change: it takes the configuration
    loaded and gives the configuration handed to [save_config], or the
    [HTTPException] raised before. *)

Record SystemEntitlements := mkSystemEntitlements {
  se_groups : option (list string);
  se_teams : option (list string);
}.

Record RoleMapping := mkRoleMapping {
  rm_google : option SystemEntitlements;
  rm_github : option SystemEntitlements;
}.

Record ConditionalRule := mkConditionalRule {
  cr_when : string;
  cr_grant : gmap string SystemEntitlements;
}.

Record PolicyUpdate := mkPolicyUpdate {
  pu_roles : option (gmap string RoleMapping);
  pu_rules : option (list ConditionalRule);
}.

(** The answer of the access review.  [review_current] holds list objects;
    the answer is serialised when the handler returns. *)
Record AccessReview := mkAccessReview {
  review_desired : EntSet;
  review_current : RefSet;
  review_changes_needed : list Change;
  review_compliance_status : string;
}.

(** An entry of [changes_by_user] in the answer of the preview. *)
Record UserImpact := mkUserImpact {
  impact_email : string;
  impact_department : option string;
  impact_original : EntSet;
  impact_new : EntSet;
  impact_changes : list Change;
}.

(** [impact_summary]; [added] and [removed] are the two counters of
    [entitlement_changes]. *)
Record ImpactSummary := mkImpactSummary {
  total_users_tested : nat;
  users_affected : nat;
  changes_by_user : list UserImpact;
  added : nat;
  removed : nat;
}.

Module Rbac.

(** [l or []] *)
Definition or_nil (l : option (list string)) : list string := default [] l.

(** The truth value of an optional list. *)
Definition truthy_list (l : option (list string)) : bool :=
  match l with
  | Some (_ :: _) => true
  | _ => false
  end.

(** [rule_dict["grant"][system]] as the handlers build it. *)
Definition grant_parts (entitlements : SystemEntitlements)
  : gmap string (list string) :=
  let parts : gmap string (list string) := ∅ in
  let parts :=
    if truthy_list (se_groups entitlements)
    then <[ "groups" := or_nil (se_groups entitlements) ]> parts else parts in
  let parts :=
    if truthy_list (se_teams entitlements)
    then <[ "teams" := or_nil (se_teams entitlements) ]> parts else parts in
  parts.

Definition rule_dict (rule : ConditionalRule) : Rule :=
  mkRule (PyStr (cr_when rule))
         (fmap (M := gmap string) grant_parts (cr_grant rule)).

(** [engine.cfg["roles"][department]] as [create_or_update_role] builds it. *)
Definition role_dict (role_config : RoleMapping) : Grant :=
  let role : Grant := ∅ in
  let role :=
    match rm_google role_config with
    | Some google => <[ "google" := {[ "groups" := or_nil (se_groups google) ]} ]> role
    | None => role
    end in
  let role :=
    match rm_github role_config with
    | Some github => <[ "github" := {[ "teams" := or_nil (se_teams github) ]} ]> role
    | None => role
    end in
  role.

(** Vocabulary: the groups and the teams of a posted role. *)
Definition posted_groups (role_config : RoleMapping) : list string :=
  match rm_google role_config with
  | Some google => or_nil (se_groups google)
  | None => []
  end.

Definition posted_teams (role_config : RoleMapping) : list string :=
  match rm_github role_config with
  | Some github => or_nil (se_teams github)
  | None => []
  end.

Definition create_or_update_role (department : string) (role_config : RoleMapping)
    (cfg : Policy) : Policy :=
  mkPolicy (<[ department := role_dict role_config ]> (roles cfg)) (rules cfg).

Definition delete_role (department : string) (cfg : Policy) : http Policy :=
  match roles cfg !! department with
  | None => HttpError 404
  | Some _ => Http200 (mkPolicy (delete department (roles cfg)) (rules cfg))
  end.

Definition add_conditional_rule (rule : ConditionalRule) (cfg : Policy) : Policy :=
  mkPolicy (roles cfg) (rules cfg ++ [rule_dict rule]).

Definition delete_conditional_rule (rule_index : Z) (cfg : Policy) : http Policy :=
  if bool_decide ((rule_index < 0)%Z
                  ∨ (Z.of_nat (length (rules cfg)) ≤ rule_index)%Z)
  then HttpError 404
  else Http200 (mkPolicy (roles cfg) (delete (Z.to_nat rule_index) (rules cfg))).

(** The body of the loop over [policy_update.roles.items()] on
    [cfg["roles"][dept]], which is the entry found or a new empty dict. *)
Definition merge_role (role_config : RoleMapping) (role : Grant) : Grant :=
  let role :=
    match rm_google role_config with
    | Some google => <[ "google" := {[ "groups" := or_nil (se_groups google) ]} ]> role
    | None => role
    end in
  let role :=
    match rm_github role_config with
    | Some github => <[ "github" := {[ "teams" := or_nil (se_teams github) ]} ]> role
    | None => role
    end in
  role.

(** The loop over [policy_update.roles.items()].  Each department is visited
    once and only its own entry is touched, so the order of the visits does
    not show in the result. *)
Definition update_roles (posted : gmap string RoleMapping) (roles : gmap string Grant)
  : gmap string Grant :=
  map_fold (λ dept role_config roles,
              <[ dept := merge_role role_config (default ∅ (roles !! dept)) ]> roles)
           roles posted.

Definition update_rbac_policies (policy_update : PolicyUpdate) (cfg : Policy) : Policy :=
  (* Update roles if provided *)
  let roles' :=
    match pu_roles policy_update with
    | Some posted => update_roles posted (roles cfg)
    | None => roles cfg
    end in
  (* Update rules if provided *)
  let rules' :=
    match pu_rules policy_update with
    | Some posted => rule_dict <$> posted
    | None => rules cfg
    end in
  mkPolicy roles' rules'.

(** The user dict of the review and of the preview: it has no [email]. *)
Definition user_dict (user : User) : StrDict :=
  {[ "department" := department user;
     "location" := location user;
     "employment_type" := employment_type user;
     "title" := title user;
     "status" := status user ]}.

(** [current.get(sys, {kind: []})]: the dict found, or a new one with a new
    empty list. *)
Definition get_part (current : RefSet) (sys kind : string) : M (gmap string loc) :=
  match current !! sys with
  | Some part => mret part
  | None => l ← lift (alloc []); mret {[ kind := l ]}
  end.

(** [user] is the row that the query finds for [user_id], if any. *)
Definition get_user_access_review (cfg : Policy) (user : option User)
  : M (http AccessReview) :=
  match user with
  | None => mret (HttpError 404)
  | Some user =>
      (* Get desired entitlements from identity engine *)
      let desired := IdentityEngine.desired_for_user cfg (user_dict user) in
      (* Get current state from provisioners *)
      current_google ← fetch_current GoogleWSMock (email user);
      current_github ← fetch_current GitHubMock (email user);
      google_part ← get_part current_google "google" "groups";
      github_part ← get_part current_github "github" "teams";
      let current : RefSet :=
        {[ "google" := google_part; "github" := github_part ]} in
      (* Calculate differences *)
      w ← get_world;
      let changes := plan_changes desired (deref w current) in
      mret (Http200
              (mkAccessReview desired current changes
                 (if bool_decide (changes = []) then "compliant"
                  else "needs_changes")))
  end.

(** [temp_engine.cfg] of [preview_policy_impact] once the posted changes are
    in: the two tests are on the truth value of what is posted. *)
Definition preview_cfg (policy_update : PolicyUpdate) (cfg : Policy) : Policy :=
  let roles' :=
    match pu_roles policy_update with
    | Some posted =>
        if bool_decide (posted = ∅) then roles cfg
        else update_roles posted (roles cfg)
    | None => roles cfg
    end in
  let rules' :=
    match pu_rules policy_update with
    | Some (rule :: posted) => rule_dict <$> (rule :: posted)
    | _ => rules cfg
    end in
  mkPolicy roles' rules'.

(** One turn of the loop over the users of the preview, on the counter
    [users_affected] and the list [changes_by_user]. *)
Definition preview_user (cfg temp : Policy) (acc : nat * list UserImpact) (user : User)
  : nat * list UserImpact :=
  let '(affected, changes) := acc in
  let original_entitlements := IdentityEngine.desired_for_user cfg (user_dict user) in
  let new_entitlements := IdentityEngine.desired_for_user temp (user_dict user) in
  if bool_decide (original_entitlements ≠ new_entitlements) then
    (affected + 1,
     changes ++ [mkUserImpact (email user) (department user)
                   original_entitlements new_entitlements
                   (plan_changes new_entitlements original_entitlements)])
  else (affected, changes).

(** [users] is what the query for ten active users gives. *)
Definition preview_policy_impact (policy_update : PolicyUpdate) (cfg : Policy)
    (users : list User) : ImpactSummary :=
  let temp := preview_cfg policy_update cfg in
  let '(affected, changes) := foldl (preview_user cfg temp) (0, []) users in
  mkImpactSummary (length users) affected changes 0 0.

End Rbac.

(** Vocabulary: the user's desired set is not the same under the two
    policies; the entry of [changes_by_user] for such a user. *)
Definition affected (cfg temp : Policy) (user : User) : Prop :=
  IdentityEngine.desired_for_user cfg (Rbac.user_dict user)
  ≠ IdentityEngine.desired_for_user temp (Rbac.user_dict user).

Definition impact_of (cfg temp : Policy) (user : User) : UserImpact :=
  mkUserImpact (email user) (department user)
    (IdentityEngine.desired_for_user cfg (Rbac.user_dict user))
    (IdentityEngine.desired_for_user temp (Rbac.user_dict user))
    (plan_changes
       (IdentityEngine.desired_for_user temp (Rbac.user_dict user))
       (IdentityEngine.desired_for_user cfg (Rbac.user_dict user))).

(** * Properties *)

(** ** Python strings *)

Section string_facts.

Implicit Types (s t w : string) (p : ascii → bool).

Lemma app_cons c s t : String c s +:+ t = String c (s +:+ t).
Proof. reflexivity. Qed.

Lemma app_empty_l t : "" +:+ t = t.
Proof. reflexivity. Qed.

Lemma app_empty_r s : s +:+ "" = s.
Proof. induction s as [|c s IH]; [done|]. by rewrite app_cons, IH. Qed.

Lemma app_assoc s t w : (s +:+ t) +:+ w = s +:+ t +:+ w.
Proof. induction s as [|c s IH]; [done|]. by rewrite !app_cons, IH. Qed.

Lemma all_chars_app p s t :
  Py.all_chars p (s +:+ t) = Py.all_chars p s && Py.all_chars p t.
Proof.
  induction s as [|c s IH]; [done|].
  rewrite app_cons. simpl. by rewrite IH, andb_assoc.
Qed.

Lemma all_chars_impl p q s :
  (∀ c, p c = true → q c = true) →
  Py.all_chars p s = true → Py.all_chars q s = true.
Proof.
  intros Hpq. induction s as [|c s IH]; [done|]. simpl.
  intros [Hc Hs]%andb_true_iff. apply andb_true_iff. auto.
Qed.

Lemma last_char_app s t : t ≠ "" → Py.last_char (s +:+ t) = Py.last_char t.
Proof.
  intros Ht. induction s as [|c s IH]; [done|].
  rewrite app_cons. simpl. rewrite IH.
  destruct t as [|d t]; [done|]. simpl. by destruct (Py.last_char t).
Qed.

Lemma last_char_None s : Py.last_char s = None → s = "".
Proof. destruct s as [|c s]; [done|]. simpl. by destruct (Py.last_char s). Qed.

Lemma lstrip_all p w : Py.all_chars p w = true → Py.lstrip p w = "".
Proof.
  induction w as [|c w IH]; [done|]. simpl.
  intros [-> Hw]%andb_true_iff. auto.
Qed.

Lemma lstrip_app_all p w s :
  Py.all_chars p w = true → Py.lstrip p (w +:+ s) = Py.lstrip p s.
Proof.
  induction w as [|c w IH]; [done|]. simpl Py.all_chars.
  intros [Hc Hw]%andb_true_iff. rewrite app_cons. simpl. rewrite Hc. auto.
Qed.

Lemma rstrip_all p w : Py.all_chars p w = true → Py.rstrip p w = "".
Proof.
  induction w as [|c w IH]; [done|]. simpl.
  intros [Hc Hw]%andb_true_iff. by rewrite IH, Hc.
Qed.

Lemma rstrip_app_all p s w :
  Py.all_chars p w = true → Py.rstrip p (s +:+ w) = Py.rstrip p s.
Proof.
  intros Hw. induction s as [|c s IH].
  - rewrite app_empty_l. by apply rstrip_all.
  - rewrite app_cons. simpl. by rewrite IH.
Qed.

Lemma rstrip_clean p s :
  (∀ d, Py.last_char s = Some d → p d = false) → Py.rstrip p s = s.
Proof.
  induction s as [|c s IH]; [done|]. simpl. intros Hlast.
  destruct (Py.last_char s) as [d|] eqn:Hs.
  - rewrite IH by (intros d' [= <-]; auto).
    destruct s; [done|]. done.
  - apply last_char_None in Hs as ->. simpl. by rewrite (Hlast c).
Qed.

(** Stripping a padded text whose own ends are clean gives the text. *)
Lemma strip_with_padded p pre body post :
  Py.all_chars p pre = true → Py.all_chars p post = true →
  Py.clean_ends p body = true →
  Py.strip_with p (pre +:+ body +:+ post) = body.
Proof.
  intros Hpre Hpost Hbody. unfold Py.strip_with.
  rewrite lstrip_app_all by done.
  destruct body as [|c body].
  - rewrite app_empty_l, lstrip_all by done. done.
  - unfold Py.clean_ends in Hbody. simpl Py.first_char in Hbody.
    destruct (Py.last_char (String c body)) as [d|] eqn:Hlast;
      [|by apply last_char_None in Hlast].
    apply andb_true_iff in Hbody as [Hc Hd].
    apply negb_true_iff in Hc.
    assert (Py.lstrip p (String c body +:+ post) = String c body +:+ post) as ->.
    { rewrite app_cons. simpl. by rewrite Hc. }
    rewrite rstrip_app_all by done.
    apply rstrip_clean. intros d' Hd'. rewrite Hlast in Hd'.
    injection Hd' as <-. by apply negb_true_iff.
Qed.

(** A text without [=] does not start with an operator. *)
Lemma prefix_operator_tail s r :
  Py.all_chars Py.not_equals_sign s = true →
  String.prefix "== " (s +:+ " " +:+ r) = false.
Proof.
  destruct s as [|d s]; [done|]. simpl Py.all_chars.
  intros [Hd _]%andb_true_iff. rewrite app_cons. cbn [String.prefix].
  destruct (ascii_dec "=" d) as [<-|]; done.
Qed.

Lemma prefix_eq_operator c s r :
  Py.all_chars Py.not_equals_sign s = true →
  String.prefix " == " (String c (s +:+ " " +:+ r)) = false.
Proof.
  intros Hs. cbn [String.prefix].
  destruct (ascii_dec " " c); [|done]. by apply prefix_operator_tail.
Qed.

Lemma prefix_ne_operator c s r :
  Py.all_chars Py.not_equals_sign s = true →
  String.prefix " != " (String c (s +:+ " " +:+ r)) = false.
Proof.
  intros Hs. cbn [String.prefix].
  destruct (ascii_dec " " c); [|done].
  destruct s as [|d s]; [done|]. rewrite app_cons. cbn [String.prefix].
  destruct (ascii_dec "!" d); [|done].
  simpl in Hs. apply andb_true_iff in Hs as [_ Hs].
  destruct s as [|d' s]; [done|]. rewrite app_cons. cbn [String.prefix].
  simpl in Hs. apply andb_true_iff in Hs as [Hd' _].
  destruct (ascii_dec "=" d') as [<-|]; done.
Qed.

Lemma partition_unfold sep c s :
  String.prefix sep (String c s) = false →
  Py.partition sep (String c s) =
    match Py.partition sep s with
    | Some (l, r) => Some (String c l, r)
    | None => None
    end.
Proof. intros H. cbn [Py.partition]. by rewrite H. Qed.

(** The first [" == "] of a text whose part before it has no [=] is that
    one. *)
Lemma partition_eq_first l r :
  Py.all_chars Py.not_equals_sign l = true →
  Py.partition " == " (l +:+ " == " +:+ r) = Some (l, r).
Proof.
  induction l as [|c l IH]; [by destruct r|]. simpl Py.all_chars.
  intros [Hc Hl]%andb_true_iff. rewrite app_cons.
  rewrite partition_unfold.
  - by rewrite IH.
  - change (" == " +:+ r) with (" " +:+ ("== " +:+ r)).
    by apply prefix_eq_operator.
Qed.

Lemma partition_ne_first l r :
  Py.all_chars Py.not_equals_sign l = true →
  Py.partition " != " (l +:+ " != " +:+ r) = Some (l, r).
Proof.
  induction l as [|c l IH]; [by destruct r|]. simpl Py.all_chars.
  intros [Hc Hl]%andb_true_iff. rewrite app_cons.
  rewrite partition_unfold.
  - by rewrite IH.
  - change (" != " +:+ r) with (" " +:+ ("!= " +:+ r)).
    by apply prefix_ne_operator.
Qed.

Lemma partition_no_equals_sign s :
  Py.all_chars Py.not_equals_sign s = true → Py.partition " == " s = None.
Proof.
  induction s as [|c s IH]; [done|]. simpl Py.all_chars.
  intros [Hc Hs]%andb_true_iff.
  rewrite partition_unfold; [by rewrite IH|].
  cbn [String.prefix]. destruct (ascii_dec " " c); [|done].
  destruct s as [|d s]; [done|]. cbn [String.prefix].
  simpl in Hs. apply andb_true_iff in Hs as [Hd _].
  destruct (ascii_dec "=" d) as [<-|]; done.
Qed.

(** No [" == "] in a text whose only [=] is the one of its [" != "]. *)
Lemma partition_eq_absent l r :
  Py.all_chars Py.not_equals_sign l = true →
  Py.all_chars Py.not_equals_sign r = true →
  Py.partition " == " (l +:+ " != " +:+ r) = None.
Proof.
  intros Hl Hr. induction l as [|c l IH].
  - rewrite app_empty_l.
    change (" != " +:+ r) with (String " " (String "!" (String "=" (String " " r)))).
    rewrite partition_unfold by done.
    rewrite partition_unfold by done.
    rewrite partition_unfold by done.
    rewrite partition_unfold.
    + by rewrite partition_no_equals_sign.
    + cbn [String.prefix]. destruct (ascii_dec " " " "); [|done].
      destruct r as [|d r]; [done|]. cbn [String.prefix].
      simpl in Hr. apply andb_true_iff in Hr as [Hd _].
      destruct (ascii_dec "=" d) as [<-|]; done.
  - simpl in Hl. apply andb_true_iff in Hl as [Hc Hl].
    rewrite app_cons, partition_unfold; [by rewrite IH|].
    change (" != " +:+ r) with (" " +:+ ("!= " +:+ r)).
    by apply prefix_eq_operator.
Qed.

End string_facts.

(** ** The rule evaluator *)

Section rule_evaluator.

Lemma isspace_not_equals_sign c :
  Py.isspace c = true → Py.not_equals_sign c = true.
Proof.
  intros Hc. unfold Py.not_equals_sign.
  case_bool_decide as Heq; [|done]. by rewrite Heq in Hc.
Qed.

Lemma first_char_app s t :
  s ≠ "" → Py.first_char (s +:+ t) = Py.first_char s.
Proof. by destruct s. Qed.

Lemma app_not_empty_r s t : t ≠ "" → s +:+ t ≠ "".
Proof. destruct s, t; done. Qed.

Lemma clean_ends_wrap p s m t :
  s ≠ "" → t ≠ "" →
  Py.clean_ends p s = true → Py.clean_ends p t = true →
  Py.clean_ends p (s +:+ m +:+ t) = true.
Proof.
  intros Hs Ht. unfold Py.clean_ends.
  rewrite first_char_app by done.
  rewrite last_char_app by (by apply app_not_empty_r).
  rewrite (last_char_app m) by done.
  destruct s as [|c s]; [done|]. simpl Py.first_char.
  destruct (Py.last_char (String c s)) as [d|] eqn:Hd;
    [|by apply last_char_None in Hd].
  destruct t as [|c' t]; [done|]. simpl Py.first_char.
  destruct (Py.last_char (String c' t)) as [d'|] eqn:Hd';
    [|by apply last_char_None in Hd'].
  intros [-> _]%andb_true_iff [_ ->]%andb_true_iff. done.
Qed.

Lemma strip_padded pre body post :
  Py.all_chars Py.isspace pre = true → Py.all_chars Py.isspace post = true →
  Py.clean_ends Py.isspace body = true →
  Py.strip (pre +:+ body +:+ post) = body.
Proof. apply strip_with_padded. Qed.

Lemma strip_padded_l pre body :
  Py.all_chars Py.isspace pre = true →
  Py.clean_ends Py.isspace body = true →
  Py.strip (pre +:+ body) = body.
Proof.
  intros Hpre Hbody.
  pose proof (strip_padded pre body "" Hpre eq_refl Hbody) as E.
  by rewrite app_empty_r in E.
Qed.

Lemma strip_padded_r body post :
  Py.all_chars Py.isspace post = true →
  Py.clean_ends Py.isspace body = true →
  Py.strip (body +:+ post) = body.
Proof. intros Hpost Hbody. exact (strip_padded "" body post eq_refl Hpost Hbody). Qed.

Lemma strip_clean body :
  Py.clean_ends Py.isspace body = true → Py.strip body = body.
Proof. intros Hbody. exact (strip_padded_l "" body eq_refl Hbody). Qed.

(** What the evaluator sees of a comparison once the padding is gone. *)
Lemma safe_eval_rule_split ctx ne l r :
  Py.all_chars Py.not_equals_sign l = true →
  (ne = true → Py.all_chars Py.not_equals_sign r = true) →
  Py.clean_ends Py.isspace (l +:+ operator ne +:+ r) = true →
  IdentityEngine._safe_eval_rule (PyStr (l +:+ operator ne +:+ r)) ctx
  = Ok (compare_with ne (py_get ctx (Py.strip l))
          (Py.strip_quotes (Py.strip r))).
Proof.
  intros Hl Hr Hclean. unfold IdentityEngine._safe_eval_rule.
  rewrite strip_clean by done.
  destruct ne; unfold operator, compare_with.
  - rewrite partition_eq_absent by auto.
    by rewrite partition_ne_first.
  - by rewrite partition_eq_first.
Qed.

End rule_evaluator.

(** C5, as the code has it.  For a predicate made of a field, the operator
    [==] or [!=] with a space on each side of it, and a literal, where the
    field is not empty, has no whitespace at its ends and no [=] in it, the
    literal with its quotes is not empty and (for [!=]) has no [=] in it:
    rule evaluation returns the comparison of [context.get(field)] with the
    literal, whatever further whitespace surrounds the three parts, and with
    every double or single quote at the ends of the literal stripped. *)
Theorem C5_comparison_with_spaced_operator
    (ctx : StrDict) (ne : bool) (f q1 v q2 pre a b post : string) :
  f ≠ "" → Py.clean_ends Py.isspace f = true →
  Py.all_chars Py.not_equals_sign f = true →
  q1 +:+ v +:+ q2 ≠ "" → Py.clean_ends Py.isspace (q1 +:+ v +:+ q2) = true →
  Py.all_chars Py.is_quote q1 = true → Py.all_chars Py.is_quote q2 = true →
  Py.clean_ends Py.is_quote v = true →
  (ne = true → Py.all_chars Py.not_equals_sign (q1 +:+ v +:+ q2) = true) →
  Py.all_chars Py.isspace pre = true → Py.all_chars Py.isspace a = true →
  Py.all_chars Py.isspace b = true → Py.all_chars Py.isspace post = true →
  IdentityEngine._safe_eval_rule
    (PyStr (pre +:+ f +:+ a +:+ operator ne +:+ b +:+ (q1 +:+ v +:+ q2) +:+ post))
    ctx
  = Ok (compare_with ne (py_get ctx f) v).
Proof.
  intros Hf Hfc Hfe Hlit Hlc Hq1 Hq2 Hv Hle Hpre Ha Hb Hpost.
  set (lit := q1 +:+ v +:+ q2) in *.
  assert (Py.strip (pre +:+ f +:+ a +:+ operator ne +:+ b +:+ lit +:+ post)
          = (f +:+ a) +:+ operator ne +:+ (b +:+ lit)) as Hstrip.
  { replace (pre +:+ f +:+ a +:+ operator ne +:+ b +:+ lit +:+ post)
      with (pre +:+ (f +:+ (a +:+ operator ne +:+ b) +:+ lit) +:+ post)
      by (by rewrite !app_assoc).
    rewrite strip_padded by (try done; by apply clean_ends_wrap).
    by rewrite !app_assoc. }
  assert (Py.clean_ends Py.isspace ((f +:+ a) +:+ operator ne +:+ (b +:+ lit))
          = true) as Hclean.
  { replace ((f +:+ a) +:+ operator ne +:+ (b +:+ lit))
      with (f +:+ (a +:+ operator ne +:+ b) +:+ lit) by (by rewrite !app_assoc).
    by apply clean_ends_wrap. }
  assert (IdentityEngine._safe_eval_rule
            (PyStr (pre +:+ f +:+ a +:+ operator ne +:+ b +:+ lit +:+ post)) ctx
          = IdentityEngine._safe_eval_rule
              (PyStr ((f +:+ a) +:+ operator ne +:+ (b +:+ lit))) ctx) as ->.
  { unfold IdentityEngine._safe_eval_rule.
    by rewrite Hstrip, (strip_clean _ Hclean). }
  rewrite safe_eval_rule_split.
  - rewrite strip_padded_r, strip_padded_l by done.
    unfold Py.strip_quotes, lit. by rewrite strip_with_padded.
  - rewrite all_chars_app, Hfe. simpl.
    eapply all_chars_impl; [apply isspace_not_equals_sign|done].
  - intros Hne. rewrite all_chars_app, (Hle Hne), andb_true_r.
    eapply all_chars_impl; [apply isspace_not_equals_sign|done].
  - done.
Qed.

Lemma C5_comparison_with_spaced_operator_witness :
  let ctx := IdentityEngine.rule_context Sample.remote_engineer in
  IdentityEngine._safe_eval_rule
    (PyStr (" " +:+ "location" +:+ " " +:+ operator false +:+ " "
            +:+ (Py.dq +:+ "Remote" +:+ Py.dq) +:+ " ")) ctx
  = Ok (compare_with false (py_get ctx "location") "Remote").
Proof.
  intros ctx.
  apply (C5_comparison_with_spaced_operator ctx false "location"
           Py.dq "Remote" Py.dq " " " " " " " "); done.
Defined.

(** C5, as the specification has it, fails: with no whitespace around the
    operator, [location=="Remote"] evaluates to false for a context whose
    [location] is [Remote]. *)
Lemma C5_tight_operator_counterexample :
  let ctx := IdentityEngine.rule_context Sample.remote_engineer in
  py_get ctx "location" = Some "Remote"
  ∧ IdentityEngine._safe_eval_rule (PyStr Sample.tight_predicate) ctx = Ok false
  ∧ IdentityEngine._safe_eval_rule (PyStr Sample.tight_predicate) ctx
    ≠ Ok (compare_with false (py_get ctx "location") "Remote").
Proof. by vm_compute. Qed.

(** A predicate holding neither [" == "] nor [" != "] evaluates to false. *)
Lemma safe_eval_rule_without_operator ctx s :
  Py.partition " == " (Py.strip s) = None →
  Py.partition " != " (Py.strip s) = None →
  IdentityEngine._safe_eval_rule (PyStr s) ctx = Ok false.
Proof. intros H1 H2. unfold IdentityEngine._safe_eval_rule. by rewrite H1, H2. Qed.

(** A rule whose evaluation raises or is false leaves [desired] as it is, and
    the loop goes on with the next rule. *)
Lemma rule_step_skipped user desired rule :
  IdentityEngine._safe_eval_rule (when rule) (IdentityEngine.rule_context user)
    ≠ Ok true →
  IdentityEngine.rule_step user desired rule = desired.
Proof.
  unfold IdentityEngine.rule_step.
  by destruct (IdentityEngine._safe_eval_rule _ _) as [[]|].
Qed.

(** A text of the supported form ends, whitespace aside, with a quote. *)
Lemma supported_form_ends_with_quote s :
  supported_form s →
  ∃ c, Py.last_char (Py.rstrip Py.isspace s) = Some c ∧ Py.is_quote c = true.
Proof.
  intros (pre & f & a & op & b & q & v & post & -> & _ & Hq & _ & _ & _ & Hpost).
  replace (pre +:+ f +:+ a +:+ op +:+ b +:+ q +:+ v +:+ q +:+ post)
    with ((pre +:+ f +:+ a +:+ op +:+ b +:+ q +:+ v) +:+ q +:+ post)
    by (by rewrite !app_assoc).
  rewrite <-app_assoc, rstrip_app_all by done.
  assert (q ≠ "") as Hne by (by destruct Hq as [-> | ->]).
  assert (∃ c, Py.last_char q = Some c ∧ Py.is_quote c = true) as (c & Hc & Hcq).
  { destruct Hq as [-> | ->]; eexists; split; reflexivity. }
  exists c. split; [|done].
  rewrite rstrip_clean.
  - by rewrite last_char_app.
  - intros d. rewrite last_char_app by done. rewrite Hc. intros [= <-].
    clear -Hcq. unfold Py.is_quote in Hcq.
    apply orb_true_iff in Hcq as [H|H]; apply bool_decide_eq_true in H;
      by subst.
Qed.

(** C4 at a failing input: [(location != "Remote")] is not of the supported
    form, yet it evaluates to true for an employee whose location is Remote,
    and its grant reaches the desired set.  The rule before it, which cannot
    be evaluated, and the rule after it are handled as the claim says. *)
Theorem C4_bracketed_predicate_is_granted :
  ¬ supported_form Sample.bracketed_predicate
  ∧ IdentityEngine._safe_eval_rule (PyStr Sample.bracketed_predicate)
      (IdentityEngine.rule_context Sample.remote_engineer) = Ok true
  ∧ get_names
      (IdentityEngine.desired_for_user Sample.bracketed_policy
         Sample.remote_engineer) "github" "teams"
    = ["onsite"; "remote-access"].
Proof.
  split; [|by vm_compute].
  intros (c & Hc & Hq)%supported_form_ends_with_quote.
  vm_compute in Hc. injection Hc as <-. by vm_compute in Hq.
Qed.

(** ** The resolver *)

(** C1.  A user whose status, trimmed and lower-cased, is [terminated] gets
    the entitlement set that is empty for every system, whatever the
    department, the roles and the rules. *)
Theorem C1_terminated_user_has_no_entitlement
    (cfg : Policy) (user : StrDict) (st : string) :
  py_get user "status" = Some st →
  Py.lower (Py.strip st) = "terminated" →
  IdentityEngine.desired_for_user cfg user
  = {[ "google" := {[ "groups" := [] ]}; "github" := {[ "teams" := [] ]} ]}
  ∧ ∀ sys kind, get_names (IdentityEngine.desired_for_user cfg user) sys kind = [].
Proof.
  intros Hst Hterm.
  assert (IdentityEngine.desired_for_user cfg user = IdentityEngine.empty_desired)
    as ->.
  { unfold IdentityEngine.desired_for_user. rewrite Hst. simpl Py.or_empty.
    by rewrite bool_decide_eq_true_2. }
  split; [done|]. intros sys kind. unfold get_names, IdentityEngine.empty_desired.
  destruct (decide (sys = "google")) as [->|?];
    [|destruct (decide (sys = "github")) as [->|?]].
  - rewrite lookup_insert_eq. simpl.
    destruct (decide (kind = "groups")) as [->|?].
    + by rewrite lookup_singleton_eq.
    + by rewrite lookup_singleton_ne.
  - rewrite lookup_insert_ne, lookup_singleton_eq by done. simpl.
    destruct (decide (kind = "teams")) as [->|?].
    + by rewrite lookup_singleton_eq.
    + by rewrite lookup_singleton_ne.
  - rewrite lookup_insert_ne, lookup_singleton_ne by done. done.
Qed.

Lemma C1_terminated_user_has_no_entitlement_witness :
  py_get Sample.terminated_engineer "status" = Some " TERMINATED "
  ∧ Py.lower (Py.strip " TERMINATED ") = "terminated"
  ∧ IdentityEngine.desired_for_user Sample.policy Sample.terminated_engineer
    = {[ "google" := {[ "groups" := [] ]}; "github" := {[ "teams" := [] ]} ]}.
Proof.
  split; [reflexivity|]. split; [reflexivity|].
  apply (C1_terminated_user_has_no_entitlement Sample.policy
           Sample.terminated_engineer " TERMINATED "); reflexivity.
Defined.

(** [sorted(set(l))] is sorted, has no repetition, and has the names of [l]. *)
Section sorted_facts.

Lemma sorted_Sorted X : Sorted String.le (Py.sorted X).
Proof. apply (Sorted_merge_sort String.le). Qed.

Lemma sorted_Permutation X : Py.sorted X ≡ₚ elements X.
Proof. apply (merge_sort_Permutation String.le). Qed.

Lemma sorted_NoDup X : NoDup (Py.sorted X).
Proof. rewrite sorted_Permutation. apply NoDup_elements. Qed.

Lemma elem_of_sorted x X : x ∈ Py.sorted X ↔ x ∈ X.
Proof. rewrite sorted_Permutation. apply elem_of_elements. Qed.

Lemma sorted_nil X : Py.sorted X = [] ↔ X = ∅.
Proof.
  split.
  - intros H. apply set_eq. intros x. rewrite <-elem_of_sorted, H.
    set_solver.
  - intros ->. apply Permutation_nil_r. by rewrite sorted_Permutation, elements_empty.
Qed.

Lemma sort_Sorted l : Sorted String.le (Py.sort l).
Proof. apply (Sorted_merge_sort String.le). Qed.

Lemma sort_Permutation l : Py.sort l ≡ₚ l.
Proof. apply (merge_sort_Permutation String.le). Qed.

(** Two sorted lists of the same names, none repeated, are the same list. *)
Lemma sorted_unique (l k : list string) :
  Sorted String.le l → Sorted String.le k → l ≡ₚ k → l = k.
Proof. apply (Sorted_unique String.le). Qed.

Lemma sort_sorted l : Sorted String.le l → Py.sort l = l.
Proof.
  intros Hl. apply sorted_unique; [apply sort_Sorted|done|apply sort_Permutation].
Qed.

End sorted_facts.

Section resolver_facts.

Lemma extend_has_entry d sys' k' v sys k :
  has_entry d sys k → has_entry (IdentityEngine.extend d sys' k' v) sys k.
Proof.
  unfold has_entry, IdentityEngine.extend. intros [l Hl].
  destruct (d !! sys) as [parts|] eqn:Hsys; [|done]. simpl in Hl.
  destruct (decide (sys' = sys)) as [->|Hne].
  - rewrite lookup_insert_eq, Hsys. simpl.
    destruct (decide (k' = k)) as [->|Hk].
    + rewrite lookup_insert_eq. eauto.
    + rewrite lookup_insert_ne by done. eauto.
  - rewrite lookup_insert_ne, Hsys by done. simpl. eauto.
Qed.

Lemma apply_grant_has_entry grant d sys k :
  has_entry d sys k → has_entry (IdentityEngine.apply_grant grant d) sys k.
Proof.
  intros Hd. unfold IdentityEngine.apply_grant.
  apply (map_fold_weak_ind (λ r _, has_entry r sys k)); [done|].
  intros sys' parts _ r _ Hr.
  apply (map_fold_weak_ind (λ r' _, has_entry r' sys k)); [done|].
  intros k' v _ r' _ Hr'. by apply extend_has_entry.
Qed.

Lemma rule_step_has_entry user d rule sys k :
  has_entry d sys k → has_entry (IdentityEngine.rule_step user d rule) sys k.
Proof.
  intros Hd. unfold IdentityEngine.rule_step.
  destruct (IdentityEngine._safe_eval_rule _ _) as [[]|]; [|done..].
  by apply apply_grant_has_entry.
Qed.

Lemma rules_have_entry user rules d sys k :
  has_entry d sys k →
  has_entry (foldl (IdentityEngine.rule_step user) d rules) sys k.
Proof.
  revert d. induction rules as [|rule rules IH]; intros d Hd; [done|].
  simpl. by apply IH, rule_step_has_entry.
Qed.

Lemma normalize_has_entry d sys k :
  has_entry d sys k → has_entry (IdentityEngine.normalize d) sys k.
Proof.
  unfold has_entry, IdentityEngine.normalize. rewrite lookup_fmap.
  destruct (d !! sys) as [parts|]; [|by intros [? ?]]. simpl.
  rewrite lookup_fmap. intros [l ->]. simpl. eauto.
Qed.

Lemma normalize_lookup d sys parts k l :
  IdentityEngine.normalize d !! sys = Some parts → parts !! k = Some l →
  ∃ l0, l = Py.sorted (Py.set l0).
Proof.
  unfold IdentityEngine.normalize. rewrite lookup_fmap.
  destruct (d !! sys) as [parts0|]; [|done]. simpl. intros [= <-].
  rewrite lookup_fmap. destruct (parts0 !! k) as [l0|]; [|done].
  simpl. intros [= <-]. eauto.
Qed.

Lemma empty_desired_has_google :
  has_entry IdentityEngine.empty_desired "google" "groups".
Proof. by eexists. Qed.

Lemma empty_desired_has_github :
  has_entry IdentityEngine.empty_desired "github" "teams".
Proof. by eexists. Qed.

Lemma empty_desired_lookup sys parts k l :
  IdentityEngine.empty_desired !! sys = Some parts → parts !! k = Some l →
  l = [].
Proof.
  unfold IdentityEngine.empty_desired. intros Hsys Hk.
  apply lookup_insert_Some in Hsys as [[<- <-]|[_ Hsys]].
  - apply lookup_singleton_Some in Hk as [_ <-]. done.
  - apply lookup_singleton_Some in Hsys as [<- <-].
    apply lookup_singleton_Some in Hk as [_ <-]. done.
Qed.

End resolver_facts.

(** C10.  For every user dict, with keys missing or holding [None] as well,
    [desired_for_user] returns a value (it is total), the value has
    [google.groups] and [github.teams], and every list of names in it is
    sorted and free of repetitions. *)
Theorem C10_desired_has_both_systems_and_is_normalized
    (cfg : Policy) (user : StrDict) :
  let desired := IdentityEngine.desired_for_user cfg user in
  is_Some (desired !! "google" ≫= (.!! "groups"))
  ∧ is_Some (desired !! "github" ≫= (.!! "teams"))
  ∧ ∀ sys parts k l,
      desired !! sys = Some parts → parts !! k = Some l →
      Sorted String.le l ∧ NoDup l.
Proof.
  unfold IdentityEngine.desired_for_user. case_bool_decide as Hterm.
  - split; [apply empty_desired_has_google|].
    split; [apply empty_desired_has_github|].
    intros sys parts k l Hsys Hk.
    rewrite (empty_desired_lookup _ _ _ _ Hsys Hk). split; constructor.
  - set (d0 := match roles cfg !! _ with Some _ => _ | None => _ end).
    assert (has_entry d0 "google" "groups" ∧ has_entry d0 "github" "teams")
      as [Hg Hh].
    { unfold d0. destruct (roles cfg !! _).
      - split; do 2 apply extend_has_entry;
          [apply empty_desired_has_google|apply empty_desired_has_github].
      - split; [apply empty_desired_has_google|apply empty_desired_has_github]. }
    split; [by apply normalize_has_entry, rules_have_entry|].
    split; [by apply normalize_has_entry, rules_have_entry|].
    intros sys parts k l Hsys Hk.
    destruct (normalize_lookup _ _ _ _ _ Hsys Hk) as [l0 ->].
    split; [apply sorted_Sorted|apply sorted_NoDup].
Qed.

(** ** The diff *)

Section diff_facts.

Lemma fmap_change_nil t a (l : list string) : mkChange t a <$> l = [] ↔ l = [].
Proof. split; [apply fmap_nil_inv|by intros ->]. Qed.

Lemma differences_empty (l k : list string) :
  Py.sorted (Py.set l ∖ Py.set k) = [] ∧ Py.sorted (Py.set k ∖ Py.set l) = []
  ↔ same_names l k.
Proof.
  rewrite !sorted_nil. unfold same_names, Py.set. split.
  - intros [H1 H2] x.
    assert (x ∉ (list_to_set l ∖ list_to_set k : gset string)) as Hx1
      by (rewrite H1; set_solver).
    assert (x ∉ (list_to_set k ∖ list_to_set l : gset string)) as Hx2
      by (rewrite H2; set_solver).
    rewrite elem_of_difference, !elem_of_list_to_set in Hx1, Hx2.
    destruct (decide (x ∈ l)), (decide (x ∈ k)); tauto.
  - intros H. split; apply set_eq; intros x; specialize (H x);
      rewrite elem_of_difference, !elem_of_list_to_set, elem_of_empty; tauto.
Qed.

Lemma sorted_difference_spec (l k : list string) :
  sorted_difference (Py.sorted (Py.set l ∖ Py.set k)) l k.
Proof.
  split; [apply sorted_Sorted|]. split; [apply sorted_NoDup|].
  intros x. unfold Py.set.
  by rewrite elem_of_sorted, elem_of_difference, !elem_of_list_to_set.
Qed.

End diff_facts.

(** C2, as the code has it.  The plan is empty exactly when the desired and
    the current Google groups are the same set of names and the desired and
    the current GitHub teams are the same set of names, a missing system or
    kind counting as empty.  No other system or kind is looked at. *)
Theorem C2_empty_plan_iff_groups_and_teams_agree (desired current : EntSet) :
  plan_changes desired current = []
  ↔ same_names (get_names desired "google" "groups")
               (get_names current "google" "groups")
    ∧ same_names (get_names desired "github" "teams")
                 (get_names current "github" "teams").
Proof.
  unfold plan_changes. cbv zeta. rewrite app_nil_l.
  rewrite <-!differences_empty, !app_nil, !fmap_change_nil. tauto.
Qed.

(** C2, as the specification has it, fails: an entitlement that the policy
    grants in a third system is in the desired set and not in the current
    one, and the plan is empty all the same. *)
Lemma C2_other_system_counterexample :
  get_names Sample.slack_desired "slack" "channels" = ["general"]
  ∧ plan_changes Sample.slack_desired Sample.slack_current = []
  ∧ ¬ agree_everywhere Sample.slack_desired Sample.slack_current.
Proof.
  assert (get_names Sample.slack_desired "slack" "channels" = ["general"]) as Hd
    by (vm_compute; reflexivity).
  assert (get_names Sample.slack_current "slack" "channels" = []) as Hc
    by (vm_compute; reflexivity).
  assert (has_entry Sample.slack_desired "slack" "channels") as He
    by (unfold has_entry; vm_compute; eauto).
  split; [exact Hd|]. split; [vm_compute; reflexivity|].
  intros H. pose proof (H "slack" "channels" (or_introl He) "general") as Hx.
  rewrite Hd, Hc in Hx. apply (elem_of_nil "general"), Hx, list_elem_of_here.
Qed.

(** C3.  For each of the two kinds the diff covers, the plan holds one add
    action per name that is desired and not current, then one remove action
    per name that is current and not desired, each group in sorted order;
    Google groups come first, GitHub teams second. *)
Theorem C3_plan_is_adds_then_removes_sorted (desired current : EntSet) :
  ∃ add_groups remove_groups add_teams remove_teams : list string,
    plan_changes desired current
    = (mkChange "google" "add_group" <$> add_groups)
      ++ (mkChange "google" "remove_group" <$> remove_groups)
      ++ (mkChange "github" "add_team" <$> add_teams)
      ++ (mkChange "github" "remove_team" <$> remove_teams)
    ∧ sorted_difference add_groups
        (get_names desired "google" "groups") (get_names current "google" "groups")
    ∧ sorted_difference remove_groups
        (get_names current "google" "groups") (get_names desired "google" "groups")
    ∧ sorted_difference add_teams
        (get_names desired "github" "teams") (get_names current "github" "teams")
    ∧ sorted_difference remove_teams
        (get_names current "github" "teams") (get_names desired "github" "teams").
Proof.
  eexists _, _, _, _. split.
  - unfold plan_changes. cbv zeta. rewrite app_nil_l, <-!(assoc_L (++)). reflexivity.
  - split; [apply sorted_difference_spec|].
    split; [apply sorted_difference_spec|].
    split; apply sorted_difference_spec.
Qed.

(** ** The adapters *)

Section adapter_facts.

Implicit Types (a : adapter) (w : World) (names : list string) (p : Change).

Lemma add_remove_differ a : Mock.add_action a ≠ Mock.remove_action a.
Proof. by destruct a. Qed.

Lemma list_remove_first_elem_of x y names :
  NoDup names → y ∈ list_remove_first x names ↔ y ∈ names ∧ y ≠ x.
Proof.
  induction 1 as [|z names Hz Hnd IH]; simpl.
  - set_solver.
  - destruct (decide (x = z)) as [->|Hne].
    + rewrite elem_of_cons. split; [|tauto].
      intros Hy. split; [tauto|]. by intros ->.
    + rewrite !elem_of_cons, IH. split; [|tauto].
      intros [->|[? ?]]; split; auto.
Qed.

Lemma list_remove_first_NoDup x names :
  NoDup names → NoDup (list_remove_first x names).
Proof.
  induction 1 as [|z names Hz Hnd IH]; simpl; [constructor|].
  destruct (decide (x = z)); [done|]. constructor; [|done].
  rewrite list_remove_first_elem_of by done. tauto.
Qed.

(** The two halves of the loop body of [apply]. *)
Lemma add_half_NoDup (c : bool) x names :
  NoDup names →
  NoDup (if c then if bool_decide (x ∉ names) then names ++ [x] else names
         else names).
Proof.
  intros Hnd. destruct c; [|done]. case_bool_decide; [|done].
  apply NoDup_app. split; [done|]. split; [|apply NoDup_singleton].
  intros y Hy ->%list_elem_of_singleton. done.
Qed.

Lemma add_half_names (c : bool) x names :
  list_to_set (if c then if bool_decide (x ∉ names) then names ++ [x] else names
               else names)
  = list_to_set names ∪ (if c then {[ x ]} else ∅) :> gset string.
Proof.
  destruct c; [|set_solver]. case_bool_decide as Hx.
  - rewrite list_to_set_app_L. set_solver.
  - set_solver.
Qed.

Lemma remove_half_NoDup (c : bool) x names :
  NoDup names →
  NoDup (if c then if bool_decide (x ∈ names) then list_remove_first x names
                   else names
         else names).
Proof.
  intros Hnd. destruct c; [|done]. case_bool_decide; [|done].
  by apply list_remove_first_NoDup.
Qed.

Lemma remove_half_names (c : bool) x names :
  NoDup names →
  list_to_set (if c then if bool_decide (x ∈ names) then list_remove_first x names
                         else names
               else names)
  = list_to_set names ∖ (if c then {[ x ]} else ∅) :> gset string.
Proof.
  intros Hnd. destruct c; [|set_solver]. case_bool_decide as Hx.
  - apply set_eq. intros y.
    rewrite elem_of_difference, !elem_of_list_to_set, elem_of_singleton.
    by apply list_remove_first_elem_of.
  - set_solver.
Qed.

Lemma apply_one_NoDup a names p :
  NoDup names → NoDup (Mock.apply_one a names p).
Proof.
  intros Hnd. unfold Mock.apply_one. case_bool_decide; [done|].
  by apply remove_half_NoDup, add_half_NoDup.
Qed.

Lemma apply_one_names a names p :
  NoDup names →
  list_to_set (Mock.apply_one a names p)
  = (list_to_set names ∖ taken a p) ∪ given a p :> gset string.
Proof.
  intros Hnd. pose proof (add_remove_differ a) as Hdiff.
  unfold Mock.apply_one, taken, given.
  case_bool_decide as Ht.
  - rewrite !bool_decide_eq_false_2 by tauto. set_solver.
  - rewrite remove_half_names by by apply add_half_NoDup.
    rewrite add_half_names.
    apply set_eq. intros y. destruct (decide (y = name p)) as [->|Hy];
      repeat case_bool_decide; try (exfalso; intuition congruence);
      set_solver.
Qed.

(** A plan takes some names out of the question and puts some in, whatever
    the list it starts from. *)
Lemma plan_names a plan :
  ∃ T G : gset string, ∀ names,
    NoDup names →
    NoDup (foldl (Mock.apply_one a) names plan)
    ∧ list_to_set (foldl (Mock.apply_one a) names plan)
      = (list_to_set names ∖ T) ∪ G :> gset string.
Proof.
  induction plan as [|p plan (T & G & IH)].
  - exists ∅, ∅. intros names Hnd. split; [done|]. simpl. set_solver.
  - exists (taken a p ∪ T), ((given a p ∖ T) ∪ G). intros names Hnd. simpl.
    destruct (IH (Mock.apply_one a names p)) as [Hnd' ->];
      [by apply apply_one_NoDup|].
    split; [done|]. rewrite apply_one_names by done. set_solver.
Qed.

(** Applying, sorting, applying the same plan again and sorting again
    gives what the first round gave. *)
Lemma plan_twice a plan names :
  NoDup names →
  Py.sort (foldl (Mock.apply_one a)
             (Py.sort (foldl (Mock.apply_one a) names plan)) plan)
  = Py.sort (foldl (Mock.apply_one a) names plan).
Proof.
  intros Hnd. destruct (plan_names a plan) as (T & G & Hplan).
  destruct (Hplan names Hnd) as [Hnd1 Hset1].
  set (l1 := foldl (Mock.apply_one a) names plan) in *.
  assert (NoDup (Py.sort l1)) as Hnds by (by rewrite sort_Permutation).
  destruct (Hplan (Py.sort l1) Hnds) as [Hnd2 Hset2].
  set (l2 := foldl (Mock.apply_one a) (Py.sort l1) plan) in *.
  apply sorted_unique; [apply sort_Sorted..|].
  rewrite !sort_Permutation. apply NoDup_Permutation; [done..|].
  intros x.
  assert (list_to_set (Py.sort l1) = list_to_set l1 :> gset string) as Hs.
  { apply set_eq. intros y. by rewrite !elem_of_list_to_set, sort_Permutation. }
  rewrite <-!(elem_of_list_to_set (C := gset string)), Hset2, Hs, Hset1.
  set_solver.
Qed.

(** *** The store *)

Lemma heap_write l v w : heap (write l v w) = <[ l := v ]> (heap w).
Proof. done. Qed.

Lemma STATE_write a l v w : Mock._STATE a (write l v w) = Mock._STATE a w.
Proof. by destruct a. Qed.

Lemma read_Some l v w : heap w !! l = Some v → read w l = v.
Proof. intros H. unfold read. by rewrite H. Qed.

Lemma read_write l v w : l < length (heap w) → read (write l v w) l = v.
Proof. intros Hl. unfold read. by rewrite heap_write, list_lookup_insert_eq. Qed.

Lemma write_write l v1 v2 w : write l v2 (write l v1 w) = write l v2 w.
Proof. unfold write. simpl. by rewrite list_insert_insert_eq. Qed.

Lemma write_same l v w : heap w !! l = Some v → write l v w = w.
Proof. intros Hl. destruct w. unfold write. simpl in *. by rewrite list_insert_id. Qed.

Lemma insert_at_end (h : list (list string)) v v' :
  <[ length h := v' ]> (h ++ [v]) = h ++ [v'].
Proof. induction h as [|x h IH]; [done|]. simpl. by rewrite IH. Qed.

Lemma lookup_at_end (h : list (list string)) v :
  (h ++ [v]) !! length h = Some v.
Proof. induction h as [|x h IH]; [done|]. done. Qed.

Lemma store_after_apply a user_email plan w :
  store_after (apply (mock a) user_email plan) w
  = (Mock.apply a user_email plan w).2.
Proof.
  unfold store_after. destruct a; simpl; unfold lift;
    by destruct (Mock.apply _ _ _ _).
Qed.

Lemma store_after_fetch a user_email w :
  store_after (fetch_current (mock a) user_email) w
  = (Mock.fetch_current a user_email w).2.
Proof.
  unfold store_after. destruct a; simpl; unfold lift;
    by destruct (Mock.fetch_current _ _ _).
Qed.

(** [apply] for an identity on record: its list is rewritten in place. *)
Lemma apply_known a user_email plan w l :
  Mock._STATE a w !! user_email = Some l → l < length (heap w) →
  Mock.apply a user_email plan w
  = (plan, write l (Py.sort (foldl (Mock.apply_one a) (read w l) plan)) w).
Proof.
  intros Hl Hlt. unfold Mock.apply. rewrite Hl.
  rewrite read_write by done. by rewrite write_write.
Qed.

(** [apply] for an identity not on record: a new list is recorded. *)
Lemma apply_new a user_email plan w :
  Mock._STATE a w !! user_email = None →
  Mock.apply a user_email plan w
  = (plan,
     Mock.set_STATE a (<[ user_email := length (heap w) ]> (Mock._STATE a w))
       (mkWorld (heap w ++ [Py.sort (foldl (Mock.apply_one a) [] plan)])
          (google_STATE w) (github_STATE w))).
Proof.
  intros Hl. unfold Mock.apply. rewrite Hl. unfold alloc, write, read.
  destruct a; simpl;
    repeat first [rewrite lookup_at_end | rewrite insert_at_end | progress simpl];
    done.
Qed.

(** After [apply] the identity is on record with a list that some
    duplicate-free list gives by the plan and a sort. *)
Lemma apply_post a user_email plan w :
  adapter_ok w →
  ∃ l names,
    NoDup names
    ∧ Mock._STATE a (Mock.apply a user_email plan w).2 !! user_email = Some l
    ∧ heap (Mock.apply a user_email plan w).2 !! l
      = Some (Py.sort (foldl (Mock.apply_one a) names plan)).
Proof.
  intros Hok. destruct (Mock._STATE a w !! user_email) as [l|] eqn:Hl.
  - destruct (Hok _ _ _ Hl) as (names & Hnames & Hnd & _).
    pose proof (lookup_lt_Some _ _ _ Hnames) as Hlt.
    rewrite (apply_known _ _ _ _ _ Hl Hlt). exists l, names. cbn [snd].
    split; [done|]. rewrite STATE_write, heap_write. split; [done|].
    rewrite list_lookup_insert_eq by done. by rewrite (read_Some _ _ _ Hnames).
  - rewrite apply_new by done. exists (length (heap w)), []. simpl.
    split; [constructor|].
    destruct a; simpl; by rewrite lookup_insert_eq, lookup_at_end.
Qed.

Lemma sort_plan_ok a names plan :
  NoDup names →
  NoDup (Py.sort (foldl (Mock.apply_one a) names plan))
  ∧ Sorted String.le (Py.sort (foldl (Mock.apply_one a) names plan)).
Proof.
  intros Hnd. split; [|apply sort_Sorted]. rewrite sort_Permutation.
  destruct (plan_names a plan) as (T & G & Hplan). by apply Hplan.
Qed.

Lemma STATE_set_STATE a a' st w :
  Mock._STATE a' (Mock.set_STATE a st w)
  = if decide (a' = a) then st else Mock._STATE a' w.
Proof. by destruct a, a'. Qed.

Lemma adapter_ok_grow v w :
  adapter_ok w →
  adapter_ok (mkWorld (heap w ++ [v]) (google_STATE w) (github_STATE w)).
Proof.
  intros Hok a e l Hl.
  destruct (Hok a e l) as (names & Hnames & Hrest); [by destruct a|].
  exists names. split; [|done]. simpl. by apply lookup_app_l_Some.
Qed.

Lemma adapter_ok_apply a user_email plan w :
  adapter_ok w → adapter_ok (Mock.apply a user_email plan w).2.
Proof.
  intros Hok. destruct (Mock._STATE a w !! user_email) as [l|] eqn:Hl.
  - destruct (Hok _ _ _ Hl) as (names & Hnames & Hnd & _).
    pose proof (lookup_lt_Some _ _ _ Hnames) as Hlt.
    rewrite (apply_known _ _ _ _ _ Hl Hlt). cbn [snd].
    intros a' e' l'. rewrite STATE_write, heap_write. intros Hl'.
    destruct (decide (l' = l)) as [->|Hne].
    + eexists. rewrite list_lookup_insert_eq by done. split; [done|].
      apply sort_plan_ok. by rewrite (read_Some _ _ _ Hnames).
    + rewrite list_lookup_insert_ne by done. by apply (Hok a' e').
  - rewrite apply_new by done. cbn [snd].
    intros a' e' l'. rewrite STATE_set_STATE.
    assert (heap (Mock.set_STATE a (<[user_email:=length (heap w)]> (Mock._STATE a w))
              (mkWorld (heap w ++ [Py.sort (foldl (Mock.apply_one a) [] plan)])
                 (google_STATE w) (github_STATE w)))
            = heap w ++ [Py.sort (foldl (Mock.apply_one a) [] plan)]) as ->
      by (by destruct a).
    assert (∀ a'' e'' l'', Mock._STATE a'' w !! e'' = Some l'' →
              ∃ names, (heap w ++ [Py.sort (foldl (Mock.apply_one a) [] plan)]) !! l''
                       = Some names ∧ NoDup names ∧ Sorted String.le names)
      as Hold.
    { intros a'' e'' l'' H''. destruct (Hok _ _ _ H'') as (names & Hn & Hrest).
      exists names. split; [|done]. by apply lookup_app_l_Some. }
    case_decide as Ha; [subst a'|by apply Hold].
    destruct (decide (e' = user_email)) as [->|Hne].
    + rewrite lookup_insert_eq. intros [= <-]. eexists.
      split; [apply lookup_at_end|]. apply sort_plan_ok. constructor.
    + rewrite lookup_insert_ne by done. apply Hold.
Qed.

Lemma adapter_ok_fetch a user_email w :
  adapter_ok w → adapter_ok (Mock.fetch_current a user_email w).2.
Proof.
  intros Hok. unfold Mock.fetch_current.
  destruct (Mock._STATE a w !! user_email); [done|].
  simpl. by apply adapter_ok_grow.
Qed.

Lemma reachable_ok w : reachable w → adapter_ok w.
Proof.
  induction 1 as [|a e w _ IH|a e plan w _ IH|v w _ IH].
  - intros a e l. by destruct a.
  - rewrite store_after_fetch. by apply adapter_ok_fetch.
  - rewrite store_after_apply. by apply adapter_ok_apply.
  - by apply adapter_ok_grow.
Qed.

(** [apply] with a plan that changes nothing leaves the store as it is. *)
Lemma apply_unchanged a user_email plan w names :
  adapter_ok w → recorded a user_email w names →
  foldl (Mock.apply_one a) names plan = names →
  (Mock.apply a user_email plan w).2 = w.
Proof.
  intros Hok (l & Hl & Hnames) Hplan.
  destruct (Hok _ _ _ Hl) as (names' & Hnames' & _ & Hsorted).
  assert (names' = names) as -> by congruence.
  rewrite (apply_known _ _ _ _ l) by eauto using lookup_lt_Some. cbn [snd].
  rewrite (read_Some _ _ _ Hnames), Hplan, sort_sorted by done.
  by apply write_same.
Qed.

End adapter_facts.

(** C6.  In every store the program can reach, for either adapter, every
    identity and every plan: applying the plan twice leaves the store that
    applying it once leaves; after [apply] the list of the identity is sorted;
    adding a name that is on record, and removing one that is not, leave the
    store as it is. *)
Theorem C6_apply_twice_is_apply_once
    (a : adapter) (user_email : string) (plan : list Change) (w : World) :
  reachable w →
  let once := store_after (apply (mock a) user_email plan) w in
  store_after (apply (mock a) user_email plan) once = once
  ∧ (∃ names, recorded a user_email once names ∧ Sorted String.le names)
  ∧ (∀ x names,
       recorded a user_email w names → x ∈ names →
       store_after
         (apply (mock a) user_email [mkChange (Mock.system a) (Mock.add_action a) x])
         w = w)
  ∧ (∀ x names,
       recorded a user_email w names → x ∉ names →
       store_after
         (apply (mock a) user_email [mkChange (Mock.system a) (Mock.remove_action a) x])
         w = w).
Proof.
  intros Hok%reachable_ok. cbv zeta. rewrite !store_after_apply.
  split; [|split; [|split]].
  - destruct (apply_post a user_email plan w Hok) as (l & names & Hnd & Hl & Hh).
    set (once := (Mock.apply a user_email plan w).2) in *.
    rewrite (apply_known _ _ _ _ l) by eauto using lookup_lt_Some. cbn [snd].
    rewrite (read_Some _ _ _ Hh), plan_twice by done.
    by apply write_same.
  - destruct (apply_post a user_email plan w Hok) as (l & names & Hnd & Hl & Hh).
    eexists. split; [by exists l|]. apply sort_Sorted.
  - intros x names Hrec Hx. rewrite store_after_apply.
    apply (apply_unchanged _ _ _ _ names); [done..|].
    pose proof (add_remove_differ a). simpl. unfold Mock.apply_one. simpl.
    repeat case_bool_decide; done.
  - intros x names Hrec Hx. rewrite store_after_apply.
    apply (apply_unchanged _ _ _ _ names); [done..|].
    pose proof (add_remove_differ a). simpl. unfold Mock.apply_one. simpl.
    repeat case_bool_decide; done.
Qed.

Lemma C6_apply_twice_is_apply_once_witness :
  reachable Sample.seeded_world
  ∧ store_after (apply (mock Google) "a@x.com" Sample.mixed_plan)
      (store_after (apply (mock Google) "a@x.com" Sample.mixed_plan)
         Sample.seeded_world)
    = store_after (apply (mock Google) "a@x.com" Sample.mixed_plan)
        Sample.seeded_world.
Proof.
  assert (reachable Sample.seeded_world) as Hreach
    by apply reachable_apply, reachable_empty.
  split; [exact Hreach|].
  exact (proj1 (C6_apply_twice_is_apply_once Google "a@x.com" Sample.mixed_plan
                  Sample.seeded_world Hreach)).
Defined.

(** C7.  For an identity the adapter has nothing on record for,
    [fetch_current] raises nothing and returns the entitlement set whose one
    list, [google.groups] for the Google adapter and [github.teams] for the
    GitHub one, is empty; nothing is put on record by the call. *)
Theorem C7_fetch_current_of_unknown_identity
    (a : adapter) (user_email : string) (w : World) :
  Mock._STATE a w !! user_email = None →
  ∃ current w',
    fetch_current (mock a) user_email w = (Ok current, w')
    ∧ deref w' current = {[ Mock.system a := {[ Mock.kind a := [] ]} ]}
    ∧ google_STATE w' = google_STATE w ∧ github_STATE w' = github_STATE w.
Proof.
  intros Hnone.
  exists {[ Mock.system a := {[ Mock.kind a := length (heap w) ]} ]}, (alloc [] w).2.
  split; [|split].
  - destruct a; simpl in *; unfold lift, Mock.fetch_current; simpl; by rewrite Hnone.
  - unfold deref. rewrite !map_fmap_singleton. do 2 f_equal.
    apply read_Some. simpl. apply lookup_at_end.
  - done.
Qed.

Lemma C7_fetch_current_of_unknown_identity_witness :
  Mock._STATE Google Sample.seeded_world !! "nobody@x.com" = None
  ∧ ∃ current w',
      fetch_current GoogleWSMock "nobody@x.com" Sample.seeded_world = (Ok current, w')
      ∧ deref w' current = {[ "google" := {[ "groups" := [] ]} ]}
      ∧ google_STATE w' = google_STATE Sample.seeded_world
      ∧ github_STATE w' = github_STATE Sample.seeded_world.
Proof.
  split; [reflexivity|].
  apply (C7_fetch_current_of_unknown_identity Google "nobody@x.com"
           Sample.seeded_world).
  reflexivity.
Defined.

(** ** The sync run *)

(** C8 at a failing input.  The engineer was provisioned by an earlier live
    run and is now terminated.  The dry run and the live run compute the same
    desired set and the same plan, but the results they return differ: the
    lists under [current] and under [access_cleared] are the adapters' own
    lists, and in the live run [apply] has emptied them by the time the
    results are read. *)
Theorem C8_live_run_reports_the_lists_after_apply :
  seen_results Sample.dry_outcome
  = Some [ mkSeenResult "a@x.com" "Terminated"
             {[ "google" := {[ "groups" := [] ]}; "github" := {[ "teams" := [] ]} ]}
             {[ "google" := {[ "groups" := ["eng@x.com"] ]};
                "github" := {[ "teams" := ["remote-access"] ]} ]}
             Sample.revocation_plan
             (Some ["eng@x.com"]) ]
  ∧ seen_results Sample.live_outcome
    = Some [ mkSeenResult "a@x.com" "Terminated"
               {[ "google" := {[ "groups" := [] ]}; "github" := {[ "teams" := [] ]} ]}
               {[ "google" := {[ "groups" := [] ]}; "github" := {[ "teams" := [] ]} ]}
               Sample.revocation_plan
               (Some []) ]
  ∧ seen_results Sample.dry_outcome ≠ seen_results Sample.live_outcome.
Proof.
  assert (seen_results Sample.dry_outcome
          = Some [ mkSeenResult "a@x.com" "Terminated"
             {[ "google" := {[ "groups" := [] ]}; "github" := {[ "teams" := [] ]} ]}
             {[ "google" := {[ "groups" := ["eng@x.com"] ]};
                "github" := {[ "teams" := ["remote-access"] ]} ]}
             Sample.revocation_plan
             (Some ["eng@x.com"]) ]) as Hdry by (vm_compute; reflexivity).
  assert (seen_results Sample.live_outcome
          = Some [ mkSeenResult "a@x.com" "Terminated"
               {[ "google" := {[ "groups" := [] ]}; "github" := {[ "teams" := [] ]} ]}
               {[ "google" := {[ "groups" := [] ]}; "github" := {[ "teams" := [] ]} ]}
               Sample.revocation_plan
               (Some []) ]) as Hlive by (vm_compute; reflexivity).
  split; [exact Hdry|]. split; [exact Hlive|].
  rewrite Hdry, Hlive. by intros [=].
Qed.

Section sync_facts.

Variables (google github : ProvisionerBase) (cfg : Policy) (dry_run : bool).

Lemma bind_Ok {A B} (m : M A) (k : A → M B) w a w' :
  m w = (Ok a, w') → (m ≫= k) w = k a w'.
Proof. intros H. unfold mbind, M_bind. by rewrite H. Qed.

Lemma bind_Raise {A B} (m : M A) (k : A → M B) w e w' :
  m w = (Raise e, w') → (m ≫= k) w = (Raise e, w').
Proof. intros H. unfold mbind, M_bind. by rewrite H. Qed.



(** An exception of [fetch_current] is the exception of the turn. *)
Lemma sync_user_fetch_raises acc u w e w' :
  fetch_current google (email u) w = (Raise e, w') →
  sync_user google github cfg dry_run acc u w = (Raise e, w').
Proof. intros H. destruct acc. unfold sync_user. by apply bind_Raise. Qed.

End sync_facts.

Section mock_run_facts.

Variables (cfg : Policy) (dry_run : bool).

Lemma fetch_shape a user_email w :
  ∃ l w',
    Mock.fetch_current a user_email w
    = ({[ Mock.system a := {[ Mock.kind a := l ]} ]}, w').
Proof.
  unfold Mock.fetch_current.
  destruct (Mock._STATE a w !! user_email); simpl; eauto.
Qed.

Lemma get_list_mock_groups (lg lh : loc) :
  get_list ({[ Mock.system GitHub := {[ Mock.kind GitHub := lh ]} ]}
            ∪ ({[ Mock.system Google := {[ Mock.kind Google := lg ]} ]} ∪ ∅))
    "google" "groups" = mret lg.
Proof. unfold get_list. by vm_compute. Qed.

Lemma get_list_mock_teams (lg lh : loc) :
  get_list ({[ Mock.system GitHub := {[ Mock.kind GitHub := lh ]} ]}
            ∪ ({[ Mock.system Google := {[ Mock.kind Google := lg ]} ]} ∪ ∅))
    "github" "teams" = mret lh.
Proof. unfold get_list. by vm_compute. Qed.

(** With the in-memory adapters the turn of a row whose status is set
    raises nothing and appends one result, the row's. *)
Lemma sync_user_mock acc u w :
  is_Some (status u) →
  ∃ n r w',
    sync_user GoogleWSMock GitHubMock cfg dry_run acc u w
    = (Ok (n, acc.2 ++ [r]), w')
    ∧ r_user r = email u.
Proof.
  intros [st Hst]. destruct acc as [n results]. unfold sync_user.
  destruct (fetch_shape Google (email u) w) as (lg & w1 & Hg).
  destruct (fetch_shape GitHub (email u) w1) as (lh & w2 & Hh).
  rewrite (bind_Ok _ _ w _ w1) by (simpl; unfold lift; by rewrite Hg).
  rewrite (bind_Ok _ _ w1 _ w2) by (simpl; unfold lift; by rewrite Hh).
  rewrite (bind_Ok _ _ w2 w2 w2) by done.
  rewrite Hst.
  rewrite (bind_Ok _ _ w2 _ w2) by done.
  rewrite get_list_mock_groups, get_list_mock_teams.
  rewrite (bind_Ok _ _ w2 lg w2) by done.
  rewrite (bind_Ok _ _ w2 w2 w2) by done.
  assert (∃ l, (if truthy w2 lg then mret lg else mret lh : M loc) w2 = (Ok l, w2))
    as [l Hl] by (destruct (truthy w2 lg); eauto).
  rewrite (bind_Ok _ _ w2 l w2) by done.
  rewrite (bind_Ok _ _ w2 w2 w2) by done.
  destruct dry_run; simpl negb; cbv iota.
  - rewrite (bind_Ok _ _ w2 () w2) by done.
    eexists _, _, _. split; [reflexivity|done].
  - set (plan := plan_changes _ _).
    destruct (Mock.apply Google (email u) plan w2) as [p3 w3] eqn:H3.
    destruct (Mock.apply GitHub (email u) plan w3) as [p4 w4] eqn:H4.
    rewrite (bind_Ok _ _ w2 () w4).
    + eexists _, _, _. split; [reflexivity|done].
    + rewrite (bind_Ok _ _ w2 p3 w3) by (simpl; unfold lift; by rewrite H3).
      rewrite (bind_Ok _ _ w3 p4 w4) by (simpl; unfold lift; by rewrite H4).
      done.
Qed.


End mock_run_facts.




(** * Further properties *)

(** ** What the resolver grants *)

Section grant_facts.

Implicit Types (d : EntSet) (g : Grant) (sys k x : string).

Lemma get_names_extend d s k' v sys k :
  get_names (IdentityEngine.extend d s k' v) sys k
  = if decide (s = sys ∧ k' = k) then get_names d sys k ++ v
    else get_names d sys k.
Proof.
  unfold get_names, IdentityEngine.extend.
  destruct (decide (s = sys)) as [->|Hs].
  - rewrite lookup_insert_eq. simpl.
    destruct (decide (k' = k)) as [->|Hk].
    + rewrite lookup_insert_eq. by rewrite decide_True.
    + rewrite lookup_insert_ne by done. by rewrite decide_False by tauto.
  - rewrite lookup_insert_ne by done. by rewrite decide_False by tauto.
Qed.

Lemma get_names_insert g s parts sys k :
  g !! s = None →
  get_names (<[ s := parts ]> g) sys k
  = if decide (s = sys) then default [] (parts !! k) else get_names g sys k.
Proof.
  intros Hs. unfold get_names. case_decide as Heq.
  - subst. by rewrite lookup_insert_eq.
  - by rewrite lookup_insert_ne.
Qed.

Lemma get_names_absent g sys k : g !! sys = None → get_names g sys k = [].
Proof. intros H. unfold get_names. by rewrite H. Qed.

(** The inner loop, over the kinds of one system of a grant. *)
Lemma elem_of_parts_fold (parts : gmap string (list string)) s d sys k x :
  x ∈ get_names (map_fold (λ k' v d', IdentityEngine.extend d' s k' v) d parts) sys k
  ↔ x ∈ get_names d sys k ∨ (s = sys ∧ x ∈ default [] (parts !! k)).
Proof.
  apply (map_fold_weak_ind
           (λ r (m : gmap string (list string)),
              x ∈ get_names r sys k
              ↔ x ∈ get_names d sys k ∨ (s = sys ∧ x ∈ default [] (m !! k)))).
  - rewrite lookup_empty. simpl. rewrite elem_of_nil. tauto.
  - intros k' v m r Hk' IH. rewrite get_names_extend.
    destruct (decide (k' = k)) as [->|Hne].
    + rewrite lookup_insert_eq, Hk' in *. simpl in *.
      case_decide as Hc; rewrite ?elem_of_app, IH, elem_of_nil; tauto.
    + rewrite lookup_insert_ne by done.
      rewrite decide_False by tauto. done.
Qed.

(** A grant adds its names, place by place, and nothing else. *)
Lemma elem_of_apply_grant g d sys k x :
  x ∈ get_names (IdentityEngine.apply_grant g d) sys k
  ↔ x ∈ get_names d sys k ∨ x ∈ get_names g sys k.
Proof.
  unfold IdentityEngine.apply_grant.
  apply (map_fold_weak_ind
           (λ r (m : Grant),
              x ∈ get_names r sys k
              ↔ x ∈ get_names d sys k ∨ x ∈ get_names m sys k)).
  - rewrite (get_names_absent ∅) by apply lookup_empty. rewrite elem_of_nil. tauto.
  - intros s parts m r Hs IH.
    rewrite elem_of_parts_fold, IH, get_names_insert by done.
    case_decide as Heq.
    + subst. rewrite (get_names_absent m) by done. rewrite elem_of_nil. tauto.
    + tauto.
Qed.

Lemma elem_of_rule_step user d rule sys k x :
  x ∈ get_names (IdentityEngine.rule_step user d rule) sys k
  ↔ x ∈ get_names d sys k ∨ (fires user rule ∧ x ∈ get_names (grant rule) sys k).
Proof.
  unfold IdentityEngine.rule_step, fires.
  destruct (IdentityEngine._safe_eval_rule _ _) as [[]|e].
  - rewrite elem_of_apply_grant. tauto.
  - split; [tauto|]. by intros [?|[? _]].
  - split; [tauto|]. by intros [?|[? _]].
Qed.

Lemma elem_of_rules user rules d sys k x :
  x ∈ get_names (foldl (IdentityEngine.rule_step user) d rules) sys k
  ↔ x ∈ get_names d sys k
    ∨ ∃ rule, rule ∈ rules ∧ fires user rule ∧ x ∈ get_names (grant rule) sys k.
Proof.
  revert d. induction rules as [|r rules IH]; intros d; simpl.
  - split; [tauto|]. intros [?|(r & Hr & _)]; [done|]. by apply elem_of_nil in Hr.
  - rewrite IH, elem_of_rule_step. split.
    + intros [[Hd|[Hf Hx]]|(r' & Hr' & Hf & Hx)].
      * by left.
      * right. exists r. split; [apply list_elem_of_here|done].
      * right. exists r'. split; [by apply list_elem_of_further|done].
    + intros [?|(r' & Hr' & ? & ?)]; [tauto|].
      apply elem_of_cons in Hr' as [->|?]; [tauto|]. right. eauto.
Qed.

Lemma get_names_normalize d sys k :
  get_names (IdentityEngine.normalize d) sys k
  = Py.sorted (Py.set (get_names d sys k)).
Proof.
  unfold get_names, IdentityEngine.normalize. rewrite lookup_fmap.
  destruct (d !! sys) as [parts|]; simpl.
  - rewrite lookup_fmap. destruct (parts !! k); simpl; [done|].
    symmetry. by apply sorted_nil.
  - rewrite lookup_empty. simpl. symmetry. by apply sorted_nil.
Qed.

Lemma elem_of_normalize d sys k x :
  x ∈ get_names (IdentityEngine.normalize d) sys k ↔ x ∈ get_names d sys k.
Proof.
  rewrite get_names_normalize, elem_of_sorted. unfold Py.set.
  by rewrite elem_of_list_to_set.
Qed.

Lemma elem_of_empty_desired sys k x :
  ¬ x ∈ get_names IdentityEngine.empty_desired sys k.
Proof.
  unfold get_names. intros Hx.
  destruct (IdentityEngine.empty_desired !! sys) as [parts|] eqn:Hsys;
    [|by apply elem_of_nil in Hx].
  simpl in Hx. destruct (parts !! k) as [l|] eqn:Hk;
    [|by apply elem_of_nil in Hx].
  rewrite (empty_desired_lookup _ _ _ _ Hsys Hk) in Hx.
  by apply elem_of_nil in Hx.
Qed.

(** What the role of the department puts into the fresh set. *)
Lemma elem_of_role_part (role : Grant) sys k x :
  x ∈ get_names
        (IdentityEngine.extend
           (IdentityEngine.extend IdentityEngine.empty_desired
              "google" "groups" (get_names role "google" "groups"))
           "github" "teams" (get_names role "github" "teams")) sys k
  ↔ role_place sys k ∧ x ∈ get_names role sys k.
Proof.
  rewrite !get_names_extend. unfold role_place.
  destruct (decide ("github" = sys ∧ "teams" = k)) as [[<- <-]|H1].
  - rewrite decide_False by (by intros [? _]). rewrite elem_of_app. split.
    + intros [Hx|Hx]; [by apply elem_of_empty_desired in Hx|]. tauto.
    + intros [_ Hx]. by right.
  - destruct (decide ("google" = sys ∧ "groups" = k)) as [[<- <-]|H2].
    + rewrite elem_of_app. split.
      * intros [Hx|Hx]; [by apply elem_of_empty_desired in Hx|]. tauto.
      * intros [_ Hx]. by right.
    + split; [intros Hx; by apply elem_of_empty_desired in Hx|].
      intros [[[-> ->]|[-> ->]] _]; [by destruct H2|by destruct H1].
Qed.

(** The names of a desired set, for a user who is not terminated. *)
Lemma elem_of_desired (cfg : Policy) (user : StrDict) sys k x :
  ¬ is_terminated_user user →
  x ∈ get_names (IdentityEngine.desired_for_user cfg user) sys k
  ↔ (∃ role, role_of cfg user = Some role ∧ role_place sys k
             ∧ x ∈ get_names role sys k)
    ∨ (∃ rule, rule ∈ rules cfg ∧ fires user rule
               ∧ x ∈ get_names (grant rule) sys k).
Proof.
  intros Hterm. unfold IdentityEngine.desired_for_user.
  rewrite bool_decide_eq_false_2 by exact Hterm.
  rewrite elem_of_normalize, elem_of_rules. unfold role_of.
  destruct (roles cfg !! _) as [role|].
  - rewrite elem_of_role_part. split.
    + intros [[? ?]|?]; [left; eauto|tauto].
    + intros [(role' & [= <-] & ? & ?)|?]; tauto.
  - split.
    + intros [Hx|?]; [by apply elem_of_empty_desired in Hx|tauto].
    + intros [(role' & [=] & _)|?]. tauto.
Qed.

End grant_facts.

(** X1.  For a user who is not terminated, a name is in the desired list of a
    system and kind exactly when the role of the user's department has it
    under [google.groups] or [github.teams], or a rule that fires for the user
    grants it under that system and kind. *)
Theorem X1_desired_names_come_from_role_and_firing_rules
    (cfg : Policy) (user : StrDict) (sys k x : string) :
  ¬ is_terminated_user user →
  x ∈ get_names (IdentityEngine.desired_for_user cfg user) sys k
  ↔ (∃ role, role_of cfg user = Some role ∧ role_place sys k
             ∧ x ∈ get_names role sys k)
    ∨ (∃ rule, rule ∈ rules cfg ∧ fires user rule
               ∧ x ∈ get_names (grant rule) sys k).
Proof. apply elem_of_desired. Qed.

Lemma X1_desired_names_come_from_role_and_firing_rules_witness :
  ¬ is_terminated_user Sample.remote_engineer
  ∧ ("remote-access"
       ∈ get_names (IdentityEngine.desired_for_user Sample.policy
                      Sample.remote_engineer) "github" "teams"
     ↔ (∃ role, role_of Sample.policy Sample.remote_engineer = Some role
                ∧ role_place "github" "teams"
                ∧ "remote-access" ∈ get_names role "github" "teams")
       ∨ (∃ rule, rule ∈ rules Sample.policy
                  ∧ fires Sample.remote_engineer rule
                  ∧ "remote-access" ∈ get_names (grant rule) "github" "teams")).
Proof.
  assert (¬ is_terminated_user Sample.remote_engineer) as Hnot
    by (intros H; vm_compute in H; discriminate).
  split; [exact Hnot|].
  exact (X1_desired_names_come_from_role_and_firing_rules Sample.policy
           Sample.remote_engineer "github" "teams" "remote-access" Hnot).
Defined.

(** X2.  The order of the rules does not show in the result: two policies
    with the same roles and the same rules in another order give every user
    the same list of names for every system and kind. *)
Theorem X2_rule_order_is_irrelevant
    (rs : gmap string Grant) (rules1 rules2 : list Rule) (user : StrDict)
    (sys k : string) :
  rules1 ≡ₚ rules2 →
  get_names (IdentityEngine.desired_for_user (mkPolicy rs rules1) user) sys k
  = get_names (IdentityEngine.desired_for_user (mkPolicy rs rules2) user) sys k.
Proof.
  intros Hperm. unfold IdentityEngine.desired_for_user. simpl.
  case_bool_decide; [done|].
  rewrite !get_names_normalize. f_equal. unfold Py.set.
  apply set_eq. intros x. rewrite !elem_of_list_to_set, !elem_of_rules.
  by setoid_rewrite Hperm.
Qed.

Lemma X2_rule_order_is_irrelevant_witness :
  get_names
    (IdentityEngine.desired_for_user
       (mkPolicy (roles Sample.bracketed_policy) (rules Sample.bracketed_policy))
       Sample.remote_engineer) "github" "teams"
  = get_names
      (IdentityEngine.desired_for_user
         (mkPolicy (roles Sample.bracketed_policy)
            (reverse (rules Sample.bracketed_policy)))
         Sample.remote_engineer) "github" "teams".
Proof.
  apply (X2_rule_order_is_irrelevant (roles Sample.bracketed_policy)
           (rules Sample.bracketed_policy)
           (reverse (rules Sample.bracketed_policy))).
  symmetry. apply reverse_Permutation.
Defined.

(** ** More on the adapters *)

Section more_adapter_facts.

Implicit Types (a : adapter) (w : World) (names : list string) (p : Change).

Lemma apply_one_irrelevant a names p :
  ¬ relevant a p → Mock.apply_one a names p = names.
Proof.
  unfold relevant, Mock.apply_one. intros Hrel.
  repeat case_bool_decide; try done; exfalso; tauto.
Qed.

Lemma foldl_apply_one_filter a plan names :
  foldl (Mock.apply_one a) names plan
  = foldl (Mock.apply_one a) names (filter (relevant a) plan).
Proof.
  revert names. induction plan as [|p plan IH]; intros names; [done|].
  rewrite filter_cons. case_decide as Hrel; simpl.
  - apply IH.
  - rewrite apply_one_irrelevant by done. apply IH.
Qed.

(** What [apply] leaves on record for the identity it is called for. *)
Lemma on_record_apply a user_email plan w :
  adapter_ok w →
  on_record a user_email (Mock.apply a user_email plan w).2
  = Py.sort (foldl (Mock.apply_one a) (on_record a user_email w) plan).
Proof.
  intros Hok. unfold on_record at 2.
  destruct (Mock._STATE a w !! user_email) as [l|] eqn:Hl.
  - destruct (Hok _ _ _ Hl) as (names & Hnames & _).
    pose proof (lookup_lt_Some _ _ _ Hnames) as Hlt.
    rewrite (apply_known _ _ _ _ _ Hl Hlt). cbn [snd]. unfold on_record.
    rewrite STATE_write, Hl. by apply read_write.
  - rewrite apply_new by done. cbn [snd]. unfold on_record.
    rewrite STATE_set_STATE, decide_True, lookup_insert_eq by done.
    apply read_Some. destruct a; simpl; apply lookup_at_end.
Qed.

Lemma reachable_separate w : reachable w → separate w.
Proof.
  induction 1 as [|a e w Hw IH|a e plan w Hw IH|v w Hw IH].
  - intros a e a' e' l Hl. by destruct a.
  - rewrite store_after_fetch. unfold Mock.fetch_current.
    destruct (Mock._STATE a w !! e); [done|].
    intros a1 e1 a2 e2 l H1 H2.
    apply (IH a1 e1 a2 e2 l); [by destruct a1|by destruct a2].
  - rewrite store_after_apply.
    pose proof (reachable_ok w Hw) as Hok.
    destruct (Mock._STATE a w !! e) as [l|] eqn:Hl.
    + destruct (Hok _ _ _ Hl) as (names & Hnames & _).
      rewrite (apply_known _ _ _ _ l) by eauto using lookup_lt_Some. cbn [snd].
      intros a1 e1 a2 e2 l'. rewrite !STATE_write. apply IH.
    + rewrite apply_new by done. cbn [snd].
      assert (∀ a0 e0 l0, Mock._STATE a0 w !! e0 = Some l0 → l0 ≠ length (heap w))
        as Hfresh.
      { intros a0 e0 l0 H0. destruct (Hok _ _ _ H0) as (names & Hnames & _).
        apply lookup_lt_Some in Hnames. lia. }
      intros a1 e1 a2 e2 l'. rewrite !STATE_set_STATE.
      repeat case_decide; subst.
      * destruct (decide (e1 = e)) as [->|H1], (decide (e2 = e)) as [->|H2];
          rewrite ?lookup_insert_eq, ?lookup_insert_ne by done.
        -- done.
        -- intros [= <-] H'. by apply Hfresh in H'.
        -- intros H' [= <-]. by apply Hfresh in H'.
        -- intros H1' H2'. by destruct (IH _ _ _ _ _ H1' H2').
      * destruct (decide (e1 = e)) as [->|H1];
          rewrite ?lookup_insert_eq, ?lookup_insert_ne by done.
        -- intros [= <-] H'. by apply Hfresh in H'.
        -- apply IH.
      * destruct (decide (e2 = e)) as [->|H2];
          rewrite ?lookup_insert_eq, ?lookup_insert_ne by done.
        -- intros H' [= <-]. by apply Hfresh in H'.
        -- apply IH.
      * apply IH.
  - intros a1 e1 a2 e2 l H1 H2.
    apply (IH a1 e1 a2 e2 l); [by destruct a1|by destruct a2].
Qed.

(** [apply] for one identity of one adapter leaves every other record as it
    is. *)
Lemma apply_frame a user_email plan w a' user_email' :
  reachable w → a' ≠ a ∨ user_email' ≠ user_email →
  Mock._STATE a' (Mock.apply a user_email plan w).2 !! user_email'
  = Mock._STATE a' w !! user_email'
  ∧ on_record a' user_email' (Mock.apply a user_email plan w).2
    = on_record a' user_email' w.
Proof.
  intros Hw Hother.
  pose proof (reachable_ok w Hw) as Hok. pose proof (reachable_separate w Hw) as Hsep.
  destruct (Mock._STATE a w !! user_email) as [l|] eqn:Hl.
  - destruct (Hok _ _ _ Hl) as (names & Hnames & _).
    rewrite (apply_known _ _ _ _ l) by eauto using lookup_lt_Some. cbn [snd].
    unfold on_record. rewrite STATE_write. split; [done|].
    destruct (Mock._STATE a' w !! user_email') as [l'|] eqn:Hl'; [|done].
    unfold read. rewrite heap_write, list_lookup_insert_ne; [done|].
    intros <-. destruct (Hsep _ _ _ _ _ Hl Hl') as [<- <-]. tauto.
  - rewrite apply_new by done. cbn [snd]. unfold on_record.
    set (w' := Mock.set_STATE a _ _).
    assert (Mock._STATE a' w' !! user_email' = Mock._STATE a' w !! user_email')
      as ->.
    { unfold w'. rewrite STATE_set_STATE. case_decide as Ha; [subst a'|done].
      rewrite lookup_insert_ne; [done|]. intros <-. tauto. }
    split; [done|].
    destruct (Mock._STATE a' w !! user_email') as [l'|] eqn:Hl'; [|done].
    destruct (Hok _ _ _ Hl') as (names & Hnames & _).
    assert (heap w' = heap w ++ [Py.sort (foldl (Mock.apply_one a) [] plan)])
      as Hheap by (by destruct a).
    unfold read. by rewrite Hheap, (lookup_app_l_Some _ _ _ _ Hnames), Hnames.
Qed.

(** [fetch_current] leaves every record as it is. *)
Lemma fetch_frame a user_email w a' user_email' :
  Mock._STATE a' (Mock.fetch_current a user_email w).2 = Mock._STATE a' w
  ∧ on_record a' user_email' (Mock.fetch_current a user_email w).2
    = on_record a' user_email' w.
Proof.
  unfold Mock.fetch_current.
  destruct (Mock._STATE a w !! user_email) as [l|]; [done|]. cbn [snd alloc].
  assert (Mock._STATE a' (mkWorld (heap w ++ [[]]) (google_STATE w) (github_STATE w))
          = Mock._STATE a' w) as HS by (by destruct a').
  split; [done|]. unfold on_record. rewrite HS.
  destruct (Mock._STATE a' w !! user_email') as [l'|]; [|done].
  unfold read. simpl.
  destruct (heap w !! l') as [names|] eqn:Hl'.
  - by rewrite (lookup_app_l_Some _ _ _ _ Hl').
  - apply lookup_ge_None in Hl'.
    destruct (decide (l' = length (heap w))) as [->|Hne].
    + by rewrite lookup_at_end.
    + rewrite lookup_ge_None_2; [done|]. rewrite length_app. simpl. lia.
Qed.

End more_adapter_facts.

Section diff_and_apply.

Implicit Types (a : adapter) (w : World) (names : list string) (p : Change).

Lemma Mock_apply_filter a user_email plan w :
  Mock.apply a user_email plan w
  = (plan, (Mock.apply a user_email (filter (relevant a) plan) w).2).
Proof.
  unfold Mock.apply, alloc.
  destruct (Mock._STATE a w !! user_email); cbn [snd];
    by rewrite <-!foldl_apply_one_filter.
Qed.

Lemma on_record_NoDup a user_email w :
  adapter_ok w → NoDup (on_record a user_email w).
Proof.
  intros Hok. unfold on_record.
  destruct (Mock._STATE a w !! user_email) as [l|] eqn:Hl; [|constructor].
  destruct (Hok _ _ _ Hl) as (names & Hnames & Hnd & _).
  by rewrite (read_Some _ _ _ Hnames).
Qed.

Lemma foldl_names_set a plan names :
  NoDup names →
  NoDup (foldl (Mock.apply_one a) names plan)
  ∧ list_to_set (foldl (Mock.apply_one a) names plan)
    = foldl (set_step a) (list_to_set names) plan.
Proof.
  revert names. induction plan as [|p plan IH]; intros names Hnd; [done|].
  simpl. destruct (IH (Mock.apply_one a names p)) as [Hnd' ->];
    [by apply apply_one_NoDup|].
  split; [done|]. by rewrite apply_one_names.
Qed.

Lemma set_fold_changes a t act (L : list string) (S : gset string) :
  foldl (set_step a) S (mkChange t act <$> L)
  = (S ∖ (if bool_decide (t = Mock.system a
                          ∧ (act = Mock.add_action a ∨ act = Mock.remove_action a))
          then list_to_set L else ∅))
    ∪ (if bool_decide (t = Mock.system a ∧ act = Mock.add_action a)
       then list_to_set L else ∅).
Proof.
  revert S. induction L as [|x L IH]; intros S.
  - simpl. repeat case_bool_decide; set_solver.
  - rewrite fmap_cons. simpl. rewrite IH. unfold set_step, taken, given. simpl.
    apply set_eq. intros y.
    destruct (decide (y ∈ L)), (decide (y = x));
      repeat case_bool_decide; try (exfalso; tauto); set_solver.
Qed.

Lemma set_of_sorted (X : gset string) : list_to_set (Py.sorted X) = X.
Proof. apply set_eq. intros x. by rewrite elem_of_list_to_set, elem_of_sorted. Qed.

(** The plan that the diff makes from the desired names and the names of a
    list turns the set of the list into the set of the desired names. *)
Lemma plan_reaches_desired a desired current names :
  get_names current (Mock.system a) (Mock.kind a) = names →
  foldl (set_step a) (list_to_set names) (plan_changes desired current)
  = Py.set (get_names desired (Mock.system a) (Mock.kind a)).
Proof.
  intros Hcur. unfold plan_changes. cbv zeta. rewrite app_nil_l.
  rewrite !foldl_app, !set_fold_changes, !set_of_sorted.
  destruct a; simpl in *; rewrite Hcur; unfold Py.set;
    repeat match goal with
    | |- context [bool_decide ?P] =>
        let b := eval vm_compute in (bool_decide P) in
        change (bool_decide P) with b
    end; cbv iota;
    apply set_eq; intros x;
    set (D := list_to_set (get_names desired _ _) : gset string);
    set (C := list_to_set names : gset string);
    destruct (decide (x ∈ D)), (decide (x ∈ C)); set_solver.
Qed.

End diff_and_apply.

(** X3.  [apply] returns the plan it was given, and what it does to the store
    depends only on the actions that have the adapter's target and one of its
    two action names: every other action is passed over. *)
Theorem X3_apply_passes_over_foreign_actions
    (a : adapter) (user_email : string) (plan : list Change) (w : World) :
  apply (mock a) user_email plan w
  = (Ok plan,
     store_after (apply (mock a) user_email (filter (relevant a) plan)) w).
Proof.
  rewrite store_after_apply.
  assert (apply (mock a) user_email plan w
          = (Ok (Mock.apply a user_email plan w).1,
             (Mock.apply a user_email plan w).2)) as ->.
  { destruct a; simpl; unfold lift; by destruct (Mock.apply _ _ _ _). }
  by rewrite Mock_apply_filter.
Qed.

(** X4.  In a store the program can reach, [apply] for one identity changes
    neither the record of another identity nor a record of the other adapter:
    which identities are on record and what their lists hold stay as they
    are. *)
Theorem X4_apply_leaves_other_records
    (a : adapter) (user_email : string) (plan : list Change) (w : World)
    (a' : adapter) (user_email' : string) :
  reachable w → a' ≠ a ∨ user_email' ≠ user_email →
  Mock._STATE a' (store_after (apply (mock a) user_email plan) w) !! user_email'
  = Mock._STATE a' w !! user_email'
  ∧ on_record a' user_email' (store_after (apply (mock a) user_email plan) w)
    = on_record a' user_email' w.
Proof. intros Hw Hother. rewrite store_after_apply. by apply apply_frame. Qed.

Lemma X4_apply_leaves_other_records_witness :
  reachable Sample.seeded_world
  ∧ on_record Google "a@x.com"
      (store_after (apply (mock Google) "b@x.com" Sample.mixed_plan)
         Sample.seeded_world)
    = on_record Google "a@x.com" Sample.seeded_world.
Proof.
  assert (reachable Sample.seeded_world) as Hreach
    by apply reachable_apply, reachable_empty.
  split; [exact Hreach|].
  refine (proj2 (X4_apply_leaves_other_records Google "b@x.com" Sample.mixed_plan
                   Sample.seeded_world Google "a@x.com" Hreach _)).
  right. discriminate.
Defined.

(** X5.  [fetch_current] never raises; it returns the list that is on record
    for the identity under the adapter's system and kind (the empty list when
    there is no record), and it changes no record of either adapter. *)
Theorem X5_fetch_current_reads_the_record
    (a : adapter) (user_email : string) (w : World) :
  ∃ current w',
    fetch_current (mock a) user_email w = (Ok current, w')
    ∧ deref w' current
      = {[ Mock.system a := {[ Mock.kind a := on_record a user_email w ]} ]}
    ∧ ∀ a' user_email',
        Mock._STATE a' w' = Mock._STATE a' w
        ∧ on_record a' user_email' w' = on_record a' user_email' w.
Proof.
  exists (Mock.fetch_current a user_email w).1, (Mock.fetch_current a user_email w).2.
  split; [|split].
  - destruct a; simpl; unfold lift; by destruct (Mock.fetch_current _ _ _).
  - unfold Mock.fetch_current, on_record.
    destruct (Mock._STATE a w !! user_email) as [l|]; simpl;
      unfold deref; rewrite !map_fmap_singleton; [done|].
    do 2 f_equal. apply read_Some. simpl. apply lookup_at_end.
  - intros a' user_email'. apply fetch_frame.
Qed.

(** X6.  In a store the program can reach, when [current] holds for the
    adapter's system and kind the list that is on record for the identity,
    applying the plan that the diff makes from [desired] and [current] leaves
    on record exactly the desired names, sorted and without repetition. *)
Theorem X6_applying_the_diff_records_the_desired_names
    (a : adapter) (user_email : string) (desired current : EntSet) (w : World) :
  reachable w →
  get_names current (Mock.system a) (Mock.kind a) = on_record a user_email w →
  on_record a user_email
    (store_after (apply (mock a) user_email (plan_changes desired current)) w)
  = Py.sorted (Py.set (get_names desired (Mock.system a) (Mock.kind a))).
Proof.
  intros Hok%reachable_ok Hcur.
  rewrite store_after_apply, on_record_apply by done.
  pose proof (on_record_NoDup a user_email w Hok) as Hnd.
  destruct (foldl_names_set a (plan_changes desired current) _ Hnd) as [Hnd' Hset].
  rewrite (plan_reaches_desired a desired current _ Hcur) in Hset.
  apply sorted_unique; [apply sort_Sorted|apply sorted_Sorted|].
  rewrite sort_Permutation. apply NoDup_Permutation; [done|apply sorted_NoDup|].
  intros x. by rewrite elem_of_sorted, <-Hset, elem_of_list_to_set.
Qed.

Lemma X6_applying_the_diff_records_the_desired_names_witness :
  reachable Sample.seeded_world
  ∧ get_names Sample.slack_current "google" "groups"
    = on_record Google "a@x.com" Sample.seeded_world
  ∧ on_record Google "a@x.com"
      (store_after
         (apply (mock Google) "a@x.com"
            (plan_changes IdentityEngine.empty_desired Sample.slack_current))
         Sample.seeded_world)
    = Py.sorted (Py.set (get_names IdentityEngine.empty_desired "google" "groups")).
Proof.
  assert (reachable Sample.seeded_world) as Hreach
    by apply reachable_apply, reachable_empty.
  assert (get_names Sample.slack_current "google" "groups"
          = on_record Google "a@x.com" Sample.seeded_world) as Hcur
    by (vm_compute; reflexivity).
  split; [exact Hreach|]. split; [exact Hcur|].
  exact (X6_applying_the_diff_records_the_desired_names Google "a@x.com"
           IdentityEngine.empty_desired Sample.slack_current Sample.seeded_world
           Hreach Hcur).
Defined.

(** ** More on the sync run *)

Section turn_facts.

Variables (cfg : Policy) (dry_run : bool).

Lemma read_fetch a user_email w l :
  read (Mock.fetch_current a user_email w).2 l = read w l.
Proof.
  unfold Mock.fetch_current.
  destruct (Mock._STATE a w !! user_email); [done|]. cbn [snd alloc].
  unfold read. simpl.
  destruct (heap w !! l) as [names|] eqn:Hl.
  - by rewrite (lookup_app_l_Some _ _ _ _ Hl).
  - apply lookup_ge_None in Hl.
    destruct (decide (l = length (heap w))) as [->|Hne].
    + by rewrite lookup_at_end.
    + rewrite lookup_ge_None_2; [done|]. rewrite length_app. simpl. lia.
Qed.

(** What [fetch_current] returns: the list object whose content is what is
    on record. *)
Lemma fetch_returns a user_email w :
  ∃ l, Mock.fetch_current a user_email w
       = ({[ Mock.system a := {[ Mock.kind a := l ]} ]},
          (Mock.fetch_current a user_email w).2)
       ∧ read (Mock.fetch_current a user_email w).2 l = on_record a user_email w.
Proof.
  unfold Mock.fetch_current, on_record.
  destruct (Mock._STATE a w !! user_email) as [l|]; simpl.
  - by exists l.
  - exists (length (heap w)). split; [done|].
    apply read_Some. simpl. apply lookup_at_end.
Qed.

Lemma get_names_of_current (w : World) (lg lh : loc) :
  get_names
    (deref w ({[ Mock.system GitHub := {[ Mock.kind GitHub := lh ]} ]}
              ∪ ({[ Mock.system Google := {[ Mock.kind Google := lg ]} ]} ∪ ∅)))
    "google" "groups" = read w lg
  ∧ get_names
      (deref w ({[ Mock.system GitHub := {[ Mock.kind GitHub := lh ]} ]}
                ∪ ({[ Mock.system Google := {[ Mock.kind Google := lg ]} ]} ∪ ∅)))
      "github" "teams" = read w lh.
Proof.
  unfold deref.
  rewrite !map_fmap_union, !map_fmap_singleton, fmap_empty.
  generalize (read w lg) (read w lh). intros A B. by vm_compute.
Qed.

(** The turn of a row with the two in-memory adapters, step by step. *)
Lemma sync_user_mock_steps acc u w :
  let e := email u in
  let w2 := fetched e w in
  let desired := IdentityEngine.desired_for_user cfg (row_dict u) in
  match status u with
  | None =>
      sync_user GoogleWSMock GitHubMock cfg dry_run acc u w
      = (Raise AttributeError, w2)
  | Some st =>
      ∃ current l,
        let plan := plan_changes desired (deref w2 current) in
        let term := bool_decide (Py.lower st = "terminated") in
        sync_user GoogleWSMock GitHubMock cfg dry_run acc u w
        = (Ok (if term && truthy w2 l then acc.1 + 1 else acc.1,
               acc.2 ++ [mkUserResult e st desired current plan
                           (if term then PyList l else PyFalse)]),
           if dry_run then w2 else applied e plan w2)
        ∧ get_names (deref w2 current) "google" "groups" = on_record Google e w
        ∧ get_names (deref w2 current) "github" "teams" = on_record GitHub e w
  end.
Proof.
  intros e w2 desired. destruct acc as [n results]. unfold sync_user.
  fold (row_dict u). fold desired. fold e.
  destruct (fetch_returns Google e w) as (lg & Hg & Hrg).
  set (w1 := (Mock.fetch_current Google e w).2) in *.
  destruct (fetch_returns GitHub e w1) as (lh & Hh & Hrh).
  fold (fetched e w) in Hh, Hrh. fold w2 in Hh, Hrh.
  rewrite (bind_Ok _ _ w _ w1) by (simpl; unfold lift; by rewrite Hg).
  rewrite (bind_Ok _ _ w1 _ w2) by (simpl; unfold lift; by rewrite Hh).
  rewrite (bind_Ok _ _ w2 w2 w2) by done.
  destruct (status u) as [st|].
  - rewrite (bind_Ok _ _ w2 st w2) by done.
    rewrite get_list_mock_groups, get_list_mock_teams.
    rewrite (bind_Ok _ _ w2 lg w2) by done.
    rewrite (bind_Ok _ _ w2 w2 w2) by done.
    set (l := if truthy w2 lg then lg else lh).
    rewrite (bind_Ok _ _ w2 l w2) by (unfold l; by destruct (truthy w2 lg)).
    rewrite (bind_Ok _ _ w2 w2 w2) by done.
    destruct (get_names_of_current w2 lg lh) as [Hcg Hch].
    eexists _, l. cbv zeta. split; [|split].
    + destruct dry_run; simpl negb; cbv iota.
      * by rewrite (bind_Ok _ _ w2 () w2) by done.
      * set (plan := plan_changes _ _).
        rewrite (bind_Ok _ _ w2 () (applied e plan w2)); [done|].
        unfold applied.
        destruct (Mock.apply Google e plan w2) as [p3 w3] eqn:H3.
        destruct (Mock.apply GitHub e plan w3) as [p4 w4] eqn:H4.
        rewrite (bind_Ok _ _ w2 p3 w3) by (simpl; unfold lift; by rewrite H3).
        rewrite (bind_Ok _ _ w3 p4 w4) by (simpl; unfold lift; by rewrite H4).
        cbn [snd]. by rewrite H4.
    + rewrite Hcg. unfold w2, fetched. rewrite read_fetch. exact Hrg.
    + rewrite Hch. exact (eq_trans Hrh (proj2 (fetch_frame Google e w GitHub e))).
  - by apply bind_Raise.
Qed.

End turn_facts.

Section run_facts.

Variables (cfg : Policy).

Lemma fetched_frame user_email w a' user_email' :
  Mock._STATE a' (fetched user_email w) = Mock._STATE a' w
  ∧ on_record a' user_email' (fetched user_email w) = on_record a' user_email' w.
Proof.
  unfold fetched.
  destruct (fetch_frame GitHub user_email
              (Mock.fetch_current Google user_email w).2 a' user_email') as [-> ->].
  apply fetch_frame.
Qed.

Lemma final_world_run_sync google github dry_run users w :
  final_world (run_sync google github cfg dry_run users w)
  = (sync_users google github cfg dry_run (0, []) users w).2.
Proof.
  unfold run_sync.
  by destruct (sync_users _ _ _ _ _ _ _) as [[[n results]|e] w'].
Qed.

Lemma sync_user_dry_world acc u w :
  (sync_user GoogleWSMock GitHubMock cfg true acc u w).2 = fetched (email u) w.
Proof.
  pose proof (sync_user_mock_steps cfg true acc u w) as H. cbv zeta in H.
  destruct (status u); [destruct H as (current & l & -> & _)|rewrite H]; done.
Qed.

Lemma sync_users_dry_frame users acc w a user_email :
  Mock._STATE a (sync_users GoogleWSMock GitHubMock cfg true acc users w).2
  = Mock._STATE a w
  ∧ on_record a user_email
      (sync_users GoogleWSMock GitHubMock cfg true acc users w).2
    = on_record a user_email w.
Proof.
  revert acc w. induction users as [|u users IH]; intros acc w; [done|].
  simpl. unfold mbind, M_bind.
  pose proof (sync_user_dry_world acc u w) as Hw.
  destruct (sync_user GoogleWSMock GitHubMock cfg true acc u w) as [[acc'|e] w1].
  - simpl in Hw. subst w1. destruct (IH acc' (fetched (email u) w)) as [-> ->].
    apply fetched_frame.
  - simpl in *. subst w1. apply fetched_frame.
Qed.

Lemma length_filter_snoc results r :
  length (filter counted_terminated (results ++ [r]))
  = length (filter counted_terminated results)
    + (if is_terminated_result r then 1 else 0).
Proof.
  rewrite filter_app, length_app, filter_cons, filter_nil.
  unfold counted_terminated.
  destruct (is_terminated_result r);
    [rewrite decide_True by done|rewrite decide_False by done]; done.
Qed.

(** A run that returns has appended one result per row, and has counted a
    result in [access_cleared] only if it is one of a terminated user. *)
Lemma sync_users_ok dry_run users acc w acc' w' :
  sync_users GoogleWSMock GitHubMock cfg dry_run acc users w = (Ok acc', w') →
  length acc'.2 = length acc.2 + length users
  ∧ (acc.1 ≤ length (filter counted_terminated acc.2) →
     acc'.1 ≤ length (filter counted_terminated acc'.2)).
Proof.
  revert acc w. induction users as [|u users IH]; intros acc w.
  - intros [= <- <-]. simpl. split; [lia|done].
  - simpl. unfold mbind, M_bind.
    pose proof (sync_user_mock_steps cfg dry_run acc u w) as Hstep.
    cbv zeta in Hstep. destruct (status u) as [st|].
    + destruct Hstep as (current & l & -> & _).
      intros Hrest. apply IH in Hrest as [Hlen Hinv]. cbn [fst snd] in *.
      rewrite length_app in Hlen. simpl in Hlen. split; [lia|].
      intros Hacc. apply Hinv. rewrite length_filter_snoc.
      set (k := length (filter counted_terminated acc.2)) in *.
      unfold is_terminated_result. cbn [r_user_status].
      destruct (bool_decide (Py.lower st = "terminated")); simpl;
        [destruct (truthy _ _)|]; lia.
    + by rewrite Hstep.
Qed.

Lemma sync_users_null dry_run users acc w :
  Exists (λ u, status u = None) users →
  ∃ w', sync_users GoogleWSMock GitHubMock cfg dry_run acc users w
        = (Raise AttributeError, w').
Proof.
  intros Hex. revert acc w. induction users as [|u users IH]; intros acc w.
  - by apply Exists_nil in Hex.
  - simpl. unfold mbind, M_bind.
    pose proof (sync_user_mock_steps cfg dry_run acc u w) as Hstep.
    cbv zeta in Hstep. destruct (status u) as [st|] eqn:Hst.
    + destruct Hstep as (current & l & -> & _).
      apply IH. apply Exists_cons in Hex as [Hu|Hex]; [congruence|done].
    + rewrite Hstep. eauto.
Qed.

End run_facts.

(** X7.  A dry run changes no record of either adapter, whatever the rows:
    the identities on record and the lists they hold are afterwards what they
    were before. *)
Theorem X7_dry_run_changes_no_record
    (cfg : Policy) (users : list User) (w : World)
    (a : adapter) (user_email : string) :
  Mock._STATE a (final_world (run_sync_task cfg true users w)) = Mock._STATE a w
  ∧ on_record a user_email (final_world (run_sync_task cfg true users w))
    = on_record a user_email w.
Proof.
  unfold run_sync_task. rewrite final_world_run_sync. apply sync_users_dry_frame.
Qed.

(** X8.  When a run returns, it returns one result per row, [count] and
    [processed] are the number of rows, and the [access_cleared] count is at
    most the number of terminated users processed, which is at most the
    number of rows. *)
Theorem X8_summary_counts_are_consistent
    (cfg : Policy) (dry_run : bool) (users : list User) (w : World)
    (r : SyncReturn) :
  returned (run_sync_task cfg dry_run users w) = Ok r →
  length (ret_results r) = length users
  ∧ s_count (ret_summary r) = length users
  ∧ s_processed (ret_summary r) = length users
  ∧ s_access_cleared (ret_summary r)
    ≤ s_terminated_users_processed (ret_summary r)
  ∧ s_terminated_users_processed (ret_summary r) ≤ length users.
Proof.
  unfold run_sync_task, run_sync.
  destruct (sync_users _ _ _ _ _ _ _) as [[[n results]|e] w'] eqn:Hrun; [|done].
  simpl. intros [= <-]. simpl.
  apply sync_users_ok in Hrun as [Hlen Hinv]. simpl in *.
  split; [done|]. split; [done|]. split; [done|]. split.
  - apply Hinv. lia.
  - rewrite <-Hlen. apply length_filter.
Qed.

Lemma X8_summary_counts_are_consistent_witness :
  ∃ r, returned Sample.live_outcome = Ok r
       ∧ s_access_cleared (ret_summary r)
         ≤ s_terminated_users_processed (ret_summary r).
Proof.
  destruct (returned Sample.live_outcome) as [r|e] eqn:Hret;
    [|by vm_compute in Hret].
  exists r. split; [done|].
  exact (proj1 (proj2 (proj2 (proj2
    (X8_summary_counts_are_consistent Sample.policy false
       [Sample.engineer_row "Terminated"] Sample.provisioned_world r Hret))))).
Defined.

(** X9.  A row whose status is NULL makes the run raise [AttributeError],
    with either value of [dry_run]: nothing is returned and the row of the run
    stays without completion time and summary. *)
Theorem X9_null_status_aborts_the_run
    (cfg : Policy) (dry_run : bool) (users : list User) (w : World) :
  Exists (λ u, status u = None) users →
  returned (run_sync_task cfg dry_run users w) = Raise AttributeError
  ∧ run_row (run_sync_task cfg dry_run users w) = mkRun dry_run false None.
Proof.
  intros Hex. unfold run_sync_task, run_sync.
  destruct (sync_users_null cfg dry_run users (0, []) w Hex) as [w' ->]. done.
Qed.

Lemma X9_null_status_aborts_the_run_witness :
  returned (run_sync_task Sample.policy true
              [Sample.engineer_row "Active";
               mkUser "n@x.com" (Some "Engineering") None None None None]
              empty_world)
  = Raise AttributeError.
Proof.
  refine (proj1 (X9_null_status_aborts_the_run Sample.policy true _ empty_world _)).
  apply Exists_cons_tl, Exists_cons_hd. reflexivity.
Defined.

Section live_run_facts.

Variables (cfg : Policy).

Lemma fetched_reachable user_email w : reachable w → reachable (fetched user_email w).
Proof.
  intros Hw. unfold fetched. rewrite <-!store_after_fetch.
  by do 2 apply reachable_fetch.
Qed.

Lemma applied_reachable user_email plan w :
  reachable w → reachable (applied user_email plan w).
Proof.
  intros Hw. unfold applied. rewrite <-!store_after_apply.
  by do 2 apply reachable_apply.
Qed.

(** The lists of a desired set are their own sorted sets. *)
Lemma desired_names_normal user sys k :
  Py.sorted (Py.set (get_names (IdentityEngine.desired_for_user cfg user) sys k))
  = get_names (IdentityEngine.desired_for_user cfg user) sys k.
Proof.
  assert (∃ l0, get_names (IdentityEngine.desired_for_user cfg user) sys k
                = Py.sorted (Py.set l0)) as [l0 ->].
  { unfold IdentityEngine.desired_for_user. case_bool_decide.
    - exists []. destruct (get_names IdentityEngine.empty_desired sys k) as [|x l] eqn:Hl.
      + symmetry. by apply sorted_nil.
      + exfalso. apply (elem_of_empty_desired sys k x). rewrite Hl. by left.
    - eexists. apply get_names_normalize. }
  unfold Py.set at 1. by rewrite set_of_sorted.
Qed.

(** What [apply] with the plan of the diff leaves on record. *)
Lemma on_record_apply_diff a user_email desired current w :
  adapter_ok w →
  get_names current (Mock.system a) (Mock.kind a) = on_record a user_email w →
  on_record a user_email (Mock.apply a user_email (plan_changes desired current) w).2
  = Py.sorted (Py.set (get_names desired (Mock.system a) (Mock.kind a))).
Proof.
  intros Hok Hcur. rewrite on_record_apply by done.
  pose proof (on_record_NoDup a user_email w Hok) as Hnd.
  destruct (foldl_names_set a (plan_changes desired current) _ Hnd) as [Hnd' Hset].
  rewrite (plan_reaches_desired a desired current _ Hcur) in Hset.
  apply sorted_unique; [apply sort_Sorted|apply sorted_Sorted|].
  rewrite sort_Permutation. apply NoDup_Permutation; [done|apply sorted_NoDup|].
  intros x. by rewrite elem_of_sorted, <-Hset, elem_of_list_to_set.
Qed.

(** A live turn: the two adapters end up with what the policy wants for the
    row, and the records of other identities stay as they are. *)
Lemma sync_user_live acc u w :
  reachable w → is_Some (status u) →
  reachable (sync_user GoogleWSMock GitHubMock cfg false acc u w).2
  ∧ (∀ a, on_record a (email u)
            (sync_user GoogleWSMock GitHubMock cfg false acc u w).2
          = wanted cfg a u)
  ∧ (∀ a user_email, user_email ≠ email u →
       on_record a user_email
         (sync_user GoogleWSMock GitHubMock cfg false acc u w).2
       = on_record a user_email w).
Proof.
  intros Hw [st Hst].
  pose proof (sync_user_mock_steps cfg false acc u w) as Hstep.
  cbv zeta in Hstep. rewrite Hst in Hstep.
  destruct Hstep as (current & l & -> & Hcg & Hch). cbn [snd].
  set (e := email u) in *. set (w2 := fetched e w) in *.
  set (desired := IdentityEngine.desired_for_user cfg (row_dict u)) in *.
  set (plan := plan_changes desired (deref w2 current)).
  pose proof (fetched_reachable e w Hw) as Hw2.
  set (w3 := (Mock.apply Google e plan w2).2).
  assert (reachable w3) as Hw3
    by (unfold w3; rewrite <-store_after_apply; by apply reachable_apply).
  assert (applied e plan w2 = (Mock.apply GitHub e plan w3).2) as Happ by done.
  split; [by apply applied_reachable|]. split.
  - intros a. unfold wanted. rewrite <-desired_names_normal. fold desired.
    rewrite Happ. destruct a.
    + destruct (apply_frame GitHub e plan w3 Google e Hw3) as [_ H3];
        [by left|].
      etrans; [exact H3|].
      apply on_record_apply_diff; [by apply reachable_ok|].
      etrans; [exact Hcg|]. symmetry. apply fetched_frame.
    + apply on_record_apply_diff; [by apply reachable_ok|].
      destruct (apply_frame Google e plan w2 GitHub e Hw2) as [_ Hfr];
        [by left|].
      etrans; [exact Hch|]. symmetry. etrans; [exact Hfr|]. apply fetched_frame.
  - intros a e' He'. rewrite Happ.
    destruct (apply_frame GitHub e plan w3 a e' Hw3) as [_ H3]; [by right|].
    destruct (apply_frame Google e plan w2 a e' Hw2) as [_ H2]; [by right|].
    etrans; [exact H3|]. etrans; [exact H2|]. apply fetched_frame.
Qed.

Lemma sync_users_live users acc w :
  reachable w → NoDup (email <$> users) →
  Forall (λ u, is_Some (status u)) users →
  reachable (sync_users GoogleWSMock GitHubMock cfg false acc users w).2
  ∧ (∀ u a, u ∈ users →
       on_record a (email u)
         (sync_users GoogleWSMock GitHubMock cfg false acc users w).2
       = wanted cfg a u)
  ∧ (∀ a user_email, user_email ∉ email <$> users →
       on_record a user_email
         (sync_users GoogleWSMock GitHubMock cfg false acc users w).2
       = on_record a user_email w).
Proof.
  intros Hw Hnd Hall. revert acc w Hw.
  induction Hall as [|u users Hu Hall IH]; intros acc w Hw.
  - split; [done|]. split; [|done]. intros u a Hin. by apply elem_of_nil in Hin.
  - rewrite fmap_cons in Hnd. apply NoDup_cons in Hnd as [Hfresh Hnd].
    destruct (sync_user_live acc u w Hw Hu) as (Hw1 & Hwant & Hframe).
    destruct (sync_user_mock cfg false acc u w Hu) as (n & r & w1 & Hstep & _).
    rewrite Hstep in Hw1, Hwant, Hframe. cbn [snd] in *.
    simpl. rewrite (bind_Ok _ _ _ _ _ Hstep).
    destruct (IH Hnd (n, acc.2 ++ [r]) w1 Hw1) as (Hw' & Hwant' & Hframe').
    split; [done|]. split.
    + intros u' a [->|Hin]%elem_of_cons; [|by apply Hwant'].
      rewrite Hframe' by done. apply Hwant.
    + intros a e' [He' Hrest]%not_elem_of_cons.
      rewrite Hframe' by done. by apply Hframe.
Qed.

Lemma wanted_terminated a u st :
  status u = Some st → Py.lower (Py.strip st) = "terminated" →
  wanted cfg a u = [].
Proof.
  intros Hst Hterm. unfold wanted, IdentityEngine.desired_for_user.
  assert (py_get (row_dict u) "status" = status u) as -> by (by vm_compute).
  rewrite Hst. simpl Py.or_empty. rewrite bool_decide_eq_true_2 by done.
  destruct (get_names IdentityEngine.empty_desired (Mock.system a) (Mock.kind a))
    as [|x l] eqn:Hl; [done|].
  exfalso. apply (elem_of_empty_desired (Mock.system a) (Mock.kind a) x).
  rewrite Hl. by left.
Qed.

End live_run_facts.

(** X10.  After a live run from a store the program can reach, over rows
    with distinct emails whose status is set, each adapter has on record, for
    every row, exactly the names the policy wants for it. *)
Theorem X10_live_run_records_what_the_policy_wants
    (cfg : Policy) (users : list User) (w : World) (u : User) (a : adapter) :
  reachable w → NoDup (email <$> users) →
  Forall (λ u, is_Some (status u)) users →
  u ∈ users →
  on_record a (email u) (final_world (run_sync_task cfg false users w))
  = get_names (IdentityEngine.desired_for_user cfg (row_dict u))
      (Mock.system a) (Mock.kind a).
Proof.
  intros Hw Hnd Hall Hin. unfold run_sync_task. rewrite final_world_run_sync.
  by apply sync_users_live.
Qed.

(** X11.  After such a live run, a row whose status, trimmed and
    lower-cased, is [terminated] has nothing on record in either adapter,
    whatever it had before. *)
Theorem X11_live_run_clears_terminated_users
    (cfg : Policy) (users : list User) (w : World) (u : User) (st : string)
    (a : adapter) :
  reachable w → NoDup (email <$> users) →
  Forall (λ u, is_Some (status u)) users →
  u ∈ users → status u = Some st → Py.lower (Py.strip st) = "terminated" →
  on_record a (email u) (final_world (run_sync_task cfg false users w)) = [].
Proof.
  intros Hw Hnd Hall Hin Hst Hterm. unfold run_sync_task.
  rewrite final_world_run_sync.
  destruct (sync_users_live cfg users (0, []) w Hw Hnd Hall) as (_ & Hwant & _).
  rewrite Hwant by done. by apply (wanted_terminated cfg a u st).
Qed.

(** The store that a live run leaves can be reached. *)
Lemma live_run_reachable (cfg : Policy) (users : list User) (w : World) :
  reachable w → NoDup (email <$> users) →
  Forall (λ u, is_Some (status u)) users →
  reachable (final_world (run_sync_task cfg false users w)).
Proof.
  intros Hw Hnd Hall. unfold run_sync_task. rewrite final_world_run_sync.
  by apply sync_users_live.
Qed.

Lemma provisioned_world_reachable : reachable Sample.provisioned_world.
Proof.
  apply live_run_reachable; [apply reachable_empty|..].
  - apply NoDup_singleton.
  - repeat constructor. by eexists.
Qed.

Lemma X10_live_run_records_what_the_policy_wants_witness :
  on_record GitHub "a@x.com" (final_world Sample.live_outcome)
  = get_names
      (IdentityEngine.desired_for_user Sample.policy
         (row_dict (Sample.engineer_row "Terminated")))
      "github" "teams".
Proof.
  apply (X10_live_run_records_what_the_policy_wants Sample.policy
           [Sample.engineer_row "Terminated"] Sample.provisioned_world
           (Sample.engineer_row "Terminated") GitHub).
  - apply provisioned_world_reachable.
  - apply NoDup_singleton.
  - repeat constructor. by eexists.
  - apply list_elem_of_here.
Defined.

Lemma X11_live_run_clears_terminated_users_witness :
  on_record Google "a@x.com" Sample.provisioned_world = ["eng@x.com"]
  ∧ on_record Google "a@x.com" (final_world Sample.live_outcome) = [].
Proof.
  split; [vm_compute; reflexivity|].
  apply (X11_live_run_clears_terminated_users Sample.policy
           [Sample.engineer_row "Terminated"] Sample.provisioned_world
           (Sample.engineer_row "Terminated") "Terminated" Google).
  - apply provisioned_world_reachable.
  - apply NoDup_singleton.
  - repeat constructor. by eexists.
  - apply list_elem_of_here.
  - reflexivity.
  - reflexivity.
Defined.

(** ** More on the diff *)

Section more_diff_facts.

Lemma elem_of_plan_changes desired current p :
  p ∈ plan_changes desired current
  ↔ ∃ x,
      (p = mkChange "google" "add_group" x
       ∧ x ∈ get_names desired "google" "groups"
       ∧ x ∉ get_names current "google" "groups")
      ∨ (p = mkChange "google" "remove_group" x
         ∧ x ∈ get_names current "google" "groups"
         ∧ x ∉ get_names desired "google" "groups")
      ∨ (p = mkChange "github" "add_team" x
         ∧ x ∈ get_names desired "github" "teams"
         ∧ x ∉ get_names current "github" "teams")
      ∨ (p = mkChange "github" "remove_team" x
         ∧ x ∈ get_names current "github" "teams"
         ∧ x ∉ get_names desired "github" "teams").
Proof.
  unfold plan_changes. cbv zeta. rewrite app_nil_l, !elem_of_app, !list_elem_of_fmap.
  unfold Py.set.
  setoid_rewrite elem_of_sorted. setoid_rewrite elem_of_difference.
  setoid_rewrite elem_of_list_to_set. split.
  - intros [[[(x & -> & ?)|(x & -> & ?)]|(x & -> & ?)]|(x & -> & ?)];
      exists x; tauto.
  - intros (x & [(-> & ?)|[(-> & ?)|[(-> & ?)|(-> & ?)]]]).
    + left. left. left. eauto.
    + left. left. right. eauto.
    + left. right. eauto.
    + right. eauto.
Qed.

Lemma NoDup_fmap_change t a (l : list string) :
  NoDup l → NoDup (mkChange t a <$> l).
Proof. apply NoDup_fmap_2. by intros x y [=]. Qed.

End more_diff_facts.

(** X12.  A plan holds no action twice, and it never holds both the addition
    and the removal of one name for one kind. *)
Theorem X12_plan_has_no_repeat_and_no_conflict (desired current : EntSet) :
  NoDup (plan_changes desired current)
  ∧ ∀ x,
      ¬ (mkChange "google" "add_group" x ∈ plan_changes desired current
         ∧ mkChange "google" "remove_group" x ∈ plan_changes desired current)
      ∧ ¬ (mkChange "github" "add_team" x ∈ plan_changes desired current
           ∧ mkChange "github" "remove_team" x ∈ plan_changes desired current).
Proof.
  split.
  - unfold plan_changes. cbv zeta. rewrite app_nil_l.
    repeat (apply NoDup_app; split; [|split]);
      try (apply NoDup_fmap_change, sorted_NoDup);
      try (intros p; rewrite ?elem_of_app, !list_elem_of_fmap;
           intros Hp Hq; destruct_or?;
           destruct Hp as (x & -> & _); by destruct Hq as (y & [=] & _)).
  - intros x. rewrite !elem_of_plan_changes. split.
    + intros [(y & Hy) (z & Hz)].
      destruct Hy as [([= <-] & ? & ?)|[([=] & _)|[([=] & _)|([=] & _)]]].
      destruct Hz as [([=] & _)|[([= <-] & ? & ?)|[([=] & _)|([=] & _)]]]. done.
    + intros [(y & Hy) (z & Hz)].
      destruct Hy as [([=] & _)|[([=] & _)|[([= <-] & ? & ?)|([=] & _)]]].
      destruct Hz as [([=] & _)|[([=] & _)|[([=] & _)|([= <-] & ? & ?)]]]. done.
Qed.

(** X13.  The plan depends only on the sets of names: desired and current
    sets that hold the same names under [google.groups] and under
    [github.teams], in whatever order and with whatever repetitions, give the
    same plan. *)
Theorem X13_plan_depends_on_the_sets_only (desired desired' current current' : EntSet) :
  same_names (get_names desired "google" "groups")
             (get_names desired' "google" "groups") →
  same_names (get_names desired "github" "teams")
             (get_names desired' "github" "teams") →
  same_names (get_names current "google" "groups")
             (get_names current' "google" "groups") →
  same_names (get_names current "github" "teams")
             (get_names current' "github" "teams") →
  plan_changes desired current = plan_changes desired' current'.
Proof.
  intros Hdg Hdt Hcg Hct.
  assert (∀ l k : list string, same_names l k → Py.set l = Py.set k) as Hset.
  { intros l k H. unfold Py.set. apply set_eq. intros x.
    rewrite !elem_of_list_to_set. apply H. }
  unfold plan_changes. cbv zeta.
  by rewrite (Hset _ _ Hdg), (Hset _ _ Hdt), (Hset _ _ Hcg), (Hset _ _ Hct).
Qed.

Lemma X13_plan_depends_on_the_sets_only_witness :
  plan_changes {[ "google" := {[ "groups" := ["b"; "a"; "b"] ]} ]}
               {[ "google" := {[ "groups" := ["c"] ]} ]}
  = plan_changes {[ "google" := {[ "groups" := ["a"; "b"] ]} ]}
                 {[ "google" := {[ "groups" := ["c"; "c"] ]};
                    "github" := {[ "teams" := [] ]} ]}.
Proof.
  apply X13_plan_depends_on_the_sets_only;
    intros x; vm_compute get_names; set_solver.
Defined.

(** ** Access control *)

Section security_facts.

Variable jwt_decode : string → option Payload.

Lemma check_scopes_Http200 required u r :
  Security.check_scopes required u = Http200 r
  ↔ r = u ∧ ∃ scope, scope ∈ required ∧ scope ∈ scopes u.
Proof.
  unfold Security.check_scopes.
  destruct (existsb _ _) eqn:E.
  - apply existsb_exists in E as (scope & Hin & Hs).
    apply bool_decide_eq_true in Hs. apply list_elem_of_In in Hin.
    split; [intros [= <-]; eauto|by intros [-> _]].
  - split; [done|]. intros [_ (scope & Hin & Hs)].
    assert (existsb (λ scope, bool_decide (scope ∈ scopes u)) required = true)
      as E'.
    { apply existsb_exists. exists scope.
      split; [by apply list_elem_of_In|by apply bool_decide_eq_true]. }
    congruence.
Qed.

Lemma check_scopes_HttpError required u code :
  Security.check_scopes required u = HttpError code
  ↔ code = 403 ∧ ∀ scope, scope ∈ required → scope ∉ scopes u.
Proof.
  unfold Security.check_scopes.
  destruct (existsb _ _) eqn:E.
  - apply existsb_exists in E as (scope & Hin & Hs).
    apply bool_decide_eq_true in Hs. apply list_elem_of_In in Hin.
    split; [done|]. intros [_ Hno]. by destruct (Hno scope Hin).
  - split; [|by intros [-> _]]. intros [= <-]. split; [done|].
    intros scope Hin Hs.
    assert (existsb (λ scope, bool_decide (scope ∈ scopes u)) required = true)
      as E'.
    { apply existsb_exists. exists scope.
      split; [by apply list_elem_of_In|by apply bool_decide_eq_true]. }
    congruence.
Qed.

Lemma require_scopes_Http200 required credentials u :
  Security.require_scopes jwt_decode required credentials = Http200 u
  ↔ Security.get_current_user jwt_decode credentials = Http200 u
    ∧ ∃ scope, scope ∈ required ∧ scope ∈ scopes u.
Proof.
  unfold Security.require_scopes.
  destruct (Security.get_current_user jwt_decode credentials) as [v|code].
  - rewrite check_scopes_Http200. split.
    + by intros [-> ?].
    + by intros [[= ->] ?].
  - split; [done|]. by intros [? _].
Qed.

Lemma get_current_user_HttpError credentials code :
  Security.get_current_user jwt_decode credentials = HttpError code
  ↔ code = 401
    ∧ ∃ token, credentials = Some token
        ∧ (jwt_decode token = None
           ∨ ∃ payload, jwt_decode token = Some payload ∧ sub payload = None).
Proof.
  unfold Security.get_current_user.
  destruct credentials as [token|].
  - destruct (jwt_decode token) as [payload|] eqn:Hdec.
    + destruct (sub payload) as [name|] eqn:Hsub.
      * split; [done|]. intros (_ & token' & [= <-] & [?|(p & ? & ?)]);
          congruence.
      * split; [|by intros [-> _]]. intros [= <-]. split; [done|].
        exists token. split; [done|]. right. eauto.
    + split; [|by intros [-> _]]. intros [= <-]. split; [done|].
      exists token. split; [done|]. by left.
  - split; [done|]. by intros (_ & token & [=] & _).
Qed.

Lemma require_scopes_mono required required' credentials u :
  (∀ scope, scope ∈ required → scope ∈ required') →
  Security.require_scopes jwt_decode required credentials = Http200 u →
  Security.require_scopes jwt_decode required' credentials = Http200 u.
Proof.
  intros Hsub. rewrite !require_scopes_Http200.
  intros [Hu (scope & Hin & Hs)]. split; [done|]. exists scope. auto.
Qed.

End security_facts.

(** X14.  A guard built by [require_scopes] lets a request pass, and hands the
    caller on, exactly when [get_current_user] accepts the credentials and the
    caller holds at least one of the required scopes. *)
Theorem X14_guard_passes_iff_one_required_scope_is_held
    (jwt_decode : string → option Payload) (required : list string)
    (credentials : option string) (u : TokenData) :
  Security.require_scopes jwt_decode required credentials = Http200 u
  ↔ Security.get_current_user jwt_decode credentials = Http200 u
    ∧ ∃ scope, scope ∈ required ∧ scope ∈ scopes u.
Proof. apply require_scopes_Http200. Qed.

(** X15.  A guard refuses with 401 or with 403 and with nothing else: with 401
    only when a token is sent that does not decode or has no subject, whatever
    the required scopes; with 403 only when the caller is known and holds none
    of the required scopes. *)
Theorem X15_guard_refuses_with_401_or_403
    (jwt_decode : string → option Payload) (required : list string)
    (credentials : option string) (code : nat) :
  Security.require_scopes jwt_decode required credentials = HttpError code →
  (code = 401
   ∧ ∃ token, credentials = Some token
       ∧ (jwt_decode token = None
          ∨ ∃ payload, jwt_decode token = Some payload ∧ sub payload = None))
  ∨ (code = 403
     ∧ ∃ u, Security.get_current_user jwt_decode credentials = Http200 u
            ∧ ∀ scope, scope ∈ required → scope ∉ scopes u).
Proof.
  unfold Security.require_scopes.
  destruct (Security.get_current_user jwt_decode credentials) as [u|code'] eqn:Hu.
  - intros [-> Hno]%check_scopes_HttpError. right. eauto.
  - intros [= <-]. left. by apply get_current_user_HttpError.
Qed.

Lemma X15_guard_refuses_with_401_or_403_witness :
  let jwt_decode : string → option Payload :=
    λ token, if bool_decide (token = "t") then Some (mkPayload (Some "w") ["write"])
             else None in
  Security.require_scopes jwt_decode ["read"; "admin"] (Some "t") = HttpError 403
  ∧ ((403 = 401
      ∧ ∃ token, Some "t" = Some token
          ∧ (jwt_decode token = None
             ∨ ∃ payload, jwt_decode token = Some payload ∧ sub payload = None))
     ∨ (403 = 403
        ∧ ∃ u, Security.get_current_user jwt_decode (Some "t") = Http200 u
               ∧ ∀ scope, scope ∈ ["read"; "admin"] → scope ∉ scopes u)).
Proof.
  intros jwt_decode.
  assert (Security.require_scopes jwt_decode ["read"; "admin"] (Some "t")
          = HttpError 403) as H by (vm_compute; reflexivity).
  split; [exact H|].
  exact (X15_guard_refuses_with_401_or_403 jwt_decode ["read"; "admin"]
           (Some "t") 403 H).
Defined.

(** X16.  A request without credentials is taken for the user [anonymous] with
    the scope [read]: it passes a guard exactly when [read] is among the
    required scopes and is refused with 403 otherwise.  So it passes
    [require_read] and is refused by [require_write] and [require_admin]. *)
Theorem X16_request_without_credentials_may_only_read
    (jwt_decode : string → option Payload) (required : list string) :
  Security.require_scopes jwt_decode required None
  = (if decide ("read" ∈ required)
     then Http200 (mkTokenData "anonymous" ["read"]) else HttpError 403)
  ∧ Security.require_read jwt_decode None
    = Http200 (mkTokenData "anonymous" ["read"])
  ∧ Security.require_write jwt_decode None = HttpError 403
  ∧ Security.require_admin jwt_decode None = HttpError 403.
Proof.
  split; [|by vm_compute].
  destruct (Security.require_scopes jwt_decode required None) as [u|code] eqn:E.
  - apply require_scopes_Http200 in E as [[= <-] (scope & Hin & Hs)].
    apply list_elem_of_singleton in Hs as ->. by rewrite decide_True.
  - unfold Security.require_scopes in E. simpl in E.
    apply check_scopes_HttpError in E as [-> Hno].
    rewrite decide_False; [done|]. intros Hin. apply (Hno _ Hin).
    apply list_elem_of_here.
Qed.

(** X17.  Whoever passes [require_admin] passes [require_read] and
    [require_write] as the same caller. *)
Theorem X17_admin_guard_implies_the_others
    (jwt_decode : string → option Payload) (credentials : option string)
    (u : TokenData) :
  Security.require_admin jwt_decode credentials = Http200 u →
  Security.require_read jwt_decode credentials = Http200 u
  ∧ Security.require_write jwt_decode credentials = Http200 u.
Proof.
  intros H. split.
  - revert H. apply require_scopes_mono. set_solver.
  - revert H. apply require_scopes_mono. set_solver.
Qed.

Lemma X17_admin_guard_implies_the_others_witness :
  let jwt_decode : string → option Payload :=
    λ token, Some (mkPayload (Some token) ["admin"]) in
  Security.require_admin jwt_decode (Some "root")
  = Http200 (mkTokenData "root" ["admin"])
  ∧ Security.require_read jwt_decode (Some "root")
    = Http200 (mkTokenData "root" ["admin"])
  ∧ Security.require_write jwt_decode (Some "root")
    = Http200 (mkTokenData "root" ["admin"]).
Proof.
  intros jwt_decode.
  assert (Security.require_admin jwt_decode (Some "root")
          = Http200 (mkTokenData "root" ["admin"])) as H
    by (vm_compute; reflexivity).
  split; [exact H|].
  exact (X17_admin_guard_implies_the_others jwt_decode (Some "root")
           (mkTokenData "root" ["admin"]) H).
Defined.

(** ** The mask of an address *)

Section mask_facts.

Lemma prefix_at c s :
  Audit.not_at c = true → String.prefix "@" (String c s) = false.
Proof.
  unfold Audit.not_at. intros Hc. cbn [String.prefix].
  destruct (ascii_dec "@" c) as [<-|]; done.
Qed.

Lemma partition_at_first name domain :
  Py.all_chars Audit.not_at name = true →
  Py.partition "@" (name +:+ "@" +:+ domain) = Some (name, domain).
Proof.
  induction name as [|c name IH]; [by destruct domain|]. simpl Py.all_chars.
  intros [Hc Hname]%andb_true_iff. rewrite app_cons.
  rewrite partition_unfold by (by apply prefix_at). by rewrite IH.
Qed.

Lemma partition_at_absent s :
  Py.all_chars Audit.not_at s = true → Py.partition "@" s = None.
Proof.
  induction s as [|c s IH]; [done|]. simpl Py.all_chars.
  intros [Hc Hs]%andb_true_iff.
  rewrite partition_unfold by (by apply prefix_at). by rewrite IH.
Qed.

End mask_facts.

(** X18.  An address with a domain is masked to the first two characters of
    what stands before its first [@] (all of it when it is shorter), then
    [***@], then the whole of what follows that [@]. *)
Theorem X18_mask_email_keeps_two_characters_and_the_domain (name domain : string) :
  Py.all_chars Audit.not_at name = true → domain ≠ "" →
  Audit.mask_email (Some (name +:+ "@" +:+ domain))
  = Audit.take 2 name +:+ "***@" +:+ domain.
Proof.
  intros Hname Hdomain. unfold Audit.mask_email.
  rewrite partition_at_first by done.
  destruct name as [|c name]; by destruct domain.
Qed.

Lemma X18_mask_email_keeps_two_characters_and_the_domain_witness :
  Audit.mask_email (Some "alice@a@x.com") = "al***@a@x.com".
Proof.
  apply (X18_mask_email_keeps_two_characters_and_the_domain "alice" "a@x.com");
    done.
Defined.

(** X19.  Without a domain there is nothing of the text in the mask: a text
    that is not empty and has no [@], or has nothing after its first [@], is
    masked to [***]; the empty text and [None] are masked to the empty
    text. *)
Theorem X19_mask_email_without_domain (name : string) :
  Py.all_chars Audit.not_at name = true →
  Audit.mask_email (Some name) = (if Py.is_empty name then "" else Audit.MASK)
  ∧ Audit.mask_email (Some (name +:+ "@")) = Audit.MASK
  ∧ Audit.mask_email None = "".
Proof.
  intros Hname. unfold Audit.mask_email. split; [|split; [|done]].
  - rewrite partition_at_absent by done. by destruct name.
  - change (name +:+ "@") with (name +:+ "@" +:+ "").
    rewrite partition_at_first by done. by destruct name.
Qed.

Lemma X19_mask_email_without_domain_witness :
  Audit.mask_email (Some "alice") = Audit.MASK
  ∧ Audit.mask_email (Some "alice@") = Audit.MASK
  ∧ Audit.mask_email None = "".
Proof. by apply (X19_mask_email_without_domain "alice"). Defined.

(** ** Rules on a field that is not set *)

(** X20.  A rule [<field> != <literal>] grants its names to every user who is
    not terminated and for whom the context has no value under the field: the
    field is not one of the five of the context, or the user has it unset. *)
Theorem X20_unequal_rule_grants_when_the_field_is_unset
    (cfg : Policy) (user : StrDict) (f lit : string) (g : Grant)
    (sys k x : string) :
  ¬ is_terminated_user user →
  f ≠ "" → Py.clean_ends Py.isspace f = true →
  Py.all_chars Py.not_equals_sign f = true →
  lit ≠ "" → Py.clean_ends Py.isspace lit = true →
  Py.all_chars Py.not_equals_sign lit = true →
  py_get (IdentityEngine.rule_context user) f = None →
  mkRule (PyStr (f +:+ " != " +:+ lit)) g ∈ rules cfg →
  x ∈ get_names g sys k →
  x ∈ get_names (IdentityEngine.desired_for_user cfg user) sys k.
Proof.
  intros Hterm Hf Hfc Hfe Hlit Hlc Hle Hnone Hin Hx.
  apply elem_of_desired; [done|]. right.
  exists (mkRule (PyStr (f +:+ " != " +:+ lit)) g).
  split; [done|]. split; [|done].
  unfold fires. cbn [when].
  rewrite (safe_eval_rule_split _ true f lit) by
    (try done; by apply clean_ends_wrap).
  rewrite strip_clean by done. rewrite Hnone. done.
Qed.

Lemma X20_unequal_rule_grants_when_the_field_is_unset_witness :
  let g : Grant := {[ "github" := {[ "teams" := ["staff"] ]} ]} in
  let cfg := mkPolicy ∅ [mkRule (PyStr ("title" +:+ " != " +:+ "Manager")) g] in
  py_get (IdentityEngine.rule_context Sample.remote_engineer) "title" = None
  ∧ "staff" ∈ get_names
                (IdentityEngine.desired_for_user cfg Sample.remote_engineer)
                "github" "teams".
Proof.
  intros g cfg. split; [vm_compute; reflexivity|].
  apply (X20_unequal_rule_grants_when_the_field_is_unset cfg
           Sample.remote_engineer "title" "Manager" g "github" "teams" "staff");
    [intros H; vm_compute in H; discriminate
    |done|done|done|done|done|done
    |vm_compute; reflexivity
    |apply list_elem_of_here
    |vm_compute; apply list_elem_of_here].
Defined.

(** ** The policy endpoints *)

Section strip_facts.

Implicit Types (s : string) (p : ascii → bool).

Lemma lstrip_first p s c :
  Py.first_char (Py.lstrip p s) = Some c → p c = false.
Proof.
  induction s as [|d s IH]; [done|]. simpl.
  destruct (p d) eqn:Hd; [done|]. by intros [= <-].
Qed.

Lemma rstrip_first p s c :
  Py.first_char (Py.rstrip p s) = Some c → Py.first_char s = Some c.
Proof.
  destruct s as [|d s]; [done|]. simpl.
  by destruct (Py.is_empty (Py.rstrip p s) && p d).
Qed.

Lemma rstrip_last p s c :
  Py.last_char (Py.rstrip p s) = Some c → p c = false.
Proof.
  induction s as [|d s IH]; [done|]. simpl.
  destruct (Py.rstrip p s) as [|e r] eqn:Hr; simpl.
  - destruct (p d) eqn:Hd; [done|]. by intros [= <-].
  - simpl in IH. destruct (Py.last_char r); [exact IH|exact IH].
Qed.

Lemma strip_with_clean_ends p s :
  Py.clean_ends p (Py.strip_with p s) = true.
Proof.
  unfold Py.clean_ends, Py.strip_with.
  destruct (Py.first_char _) as [c|] eqn:Hc; [|done].
  destruct (Py.last_char _) as [d|] eqn:Hd; [|done].
  apply rstrip_first, lstrip_first in Hc. apply rstrip_last in Hd.
  by rewrite Hc, Hd.
Qed.

(** Stripping what is stripped changes nothing. *)
Lemma strip_strip s : Py.strip (Py.strip s) = Py.strip s.
Proof. apply strip_clean, strip_with_clean_ends. Qed.

End strip_facts.

Section policy_endpoint_facts.

Implicit Types (cfg : Policy) (user : StrDict) (department sys k x : string).

Lemma get_names_role_dict role_config :
  get_names (Rbac.role_dict role_config) "google" "groups"
  = Rbac.posted_groups role_config
  ∧ get_names (Rbac.role_dict role_config) "github" "teams"
    = Rbac.posted_teams role_config.
Proof.
  unfold Rbac.role_dict, Rbac.posted_groups, Rbac.posted_teams.
  destruct (rm_google role_config) as [google|],
           (rm_github role_config) as [github|];
    try generalize (Rbac.or_nil (se_groups google));
    try generalize (Rbac.or_nil (se_teams github)); intros; by vm_compute.
Qed.

Lemma create_role_frame department role_config cfg user :
  Py.strip (Py.or_empty (py_get user "department")) ≠ department →
  IdentityEngine.desired_for_user
    (Rbac.create_or_update_role department role_config cfg) user
  = IdentityEngine.desired_for_user cfg user.
Proof.
  intros Hne. unfold IdentityEngine.desired_for_user, Rbac.create_or_update_role.
  cbn [roles rules]. by rewrite lookup_insert_ne.
Qed.

Lemma policy_eta cfg : mkPolicy (roles cfg) (rules cfg) = cfg.
Proof. by destruct cfg. Qed.

(** What a posted rule grants under a system and kind. *)
Lemma elem_of_rule_dict (rule : ConditionalRule) sys k x :
  x ∈ get_names (grant (Rbac.rule_dict rule)) sys k
  ↔ ∃ entitlements,
      cr_grant rule !! sys = Some entitlements
      ∧ ((k = "groups" ∧ x ∈ Rbac.or_nil (se_groups entitlements))
         ∨ (k = "teams" ∧ x ∈ Rbac.or_nil (se_teams entitlements))).
Proof.
  unfold Rbac.rule_dict, get_names. cbn [grant]. rewrite lookup_fmap.
  destruct (cr_grant rule !! sys) as [entitlements|]; simpl.
  - assert (x ∈ default [] (Rbac.grant_parts entitlements !! k)
            ↔ (k = "groups" ∧ x ∈ Rbac.or_nil (se_groups entitlements))
              ∨ (k = "teams" ∧ x ∈ Rbac.or_nil (se_teams entitlements))) as ->.
    { unfold Rbac.grant_parts.
      destruct (se_groups entitlements) as [[|g gs]|],
               (se_teams entitlements) as [[|t ts]|]; simpl;
        repeat match goal with
        | |- context [<[ ?i := _ ]> _ !! k] =>
            destruct (decide (i = k)) as [<-|?];
            [rewrite lookup_insert_eq
            |rewrite lookup_insert_ne by done]
        end; rewrite ?lookup_empty; simpl; rewrite ?elem_of_nil;
        intuition congruence. }
    split; [eauto|]. by intros (e & [= <-] & ?).
  - rewrite lookup_empty. simpl. rewrite elem_of_nil.
    split; [done|]. by intros (e & [=] & _).
Qed.

End policy_endpoint_facts.

(** X21.  Once a role is posted for a department, a user of that department
    who is not terminated has under [google.groups] exactly the groups posted
    and what the rules that fire grant there, and under [github.teams] exactly
    the teams posted and what those rules grant there: what the department
    had before is gone. *)
Theorem X21_posted_role_is_what_its_department_gets
    (department : string) (role_config : RoleMapping) (cfg : Policy)
    (user : StrDict) (x : string) :
  ¬ is_terminated_user user →
  Py.strip (Py.or_empty (py_get user "department")) = department →
  (x ∈ get_names
         (IdentityEngine.desired_for_user
            (Rbac.create_or_update_role department role_config cfg) user)
         "google" "groups"
   ↔ x ∈ Rbac.posted_groups role_config
     ∨ ∃ rule, rule ∈ rules cfg ∧ fires user rule
               ∧ x ∈ get_names (grant rule) "google" "groups")
  ∧ (x ∈ get_names
           (IdentityEngine.desired_for_user
              (Rbac.create_or_update_role department role_config cfg) user)
           "github" "teams"
     ↔ x ∈ Rbac.posted_teams role_config
       ∨ ∃ rule, rule ∈ rules cfg ∧ fires user rule
                 ∧ x ∈ get_names (grant rule) "github" "teams").
Proof.
  intros Hterm Hdept.
  assert (role_of (Rbac.create_or_update_role department role_config cfg) user
          = Some (Rbac.role_dict role_config)) as Hrole.
  { unfold role_of, Rbac.create_or_update_role. cbn [roles].
    rewrite Hdept. apply lookup_insert_eq. }
  destruct (get_names_role_dict role_config) as [Hg Ht].
  rewrite !elem_of_desired by done. rewrite Hrole. cbn [rules Rbac.create_or_update_role].
  split.
  - split.
    + intros [(role & [= <-] & _ & Hx)|?]; [left; by rewrite <-Hg|by right].
    + intros [Hx|?]; [left|by right].
      exists (Rbac.role_dict role_config). split; [done|].
      split; [by left|by rewrite Hg].
  - split.
    + intros [(role & [= <-] & _ & Hx)|?]; [left; by rewrite <-Ht|by right].
    + intros [Hx|?]; [left|by right].
      exists (Rbac.role_dict role_config). split; [done|].
      split; [by right|by rewrite Ht].
Qed.

Lemma X21_posted_role_is_what_its_department_gets_witness :
  let role_config :=
    mkRoleMapping (Some (mkSystemEntitlements (Some ["sales@x.com"]) None)) None in
  let cfg' := Rbac.create_or_update_role "Engineering" role_config Sample.policy in
  ("sales@x.com" ∈ get_names
                     (IdentityEngine.desired_for_user cfg' Sample.remote_engineer)
                     "google" "groups"
   ↔ "sales@x.com" ∈ Rbac.posted_groups role_config
     ∨ ∃ rule, rule ∈ rules Sample.policy ∧ fires Sample.remote_engineer rule
               ∧ "sales@x.com" ∈ get_names (grant rule) "google" "groups")
  ∧ ("sales@x.com" ∈ get_names
                       (IdentityEngine.desired_for_user cfg' Sample.remote_engineer)
                       "github" "teams"
     ↔ "sales@x.com" ∈ Rbac.posted_teams role_config
       ∨ ∃ rule, rule ∈ rules Sample.policy ∧ fires Sample.remote_engineer rule
                 ∧ "sales@x.com" ∈ get_names (grant rule) "github" "teams").
Proof.
  intros role_config cfg'.
  apply (X21_posted_role_is_what_its_department_gets "Engineering" role_config
           Sample.policy Sample.remote_engineer "sales@x.com").
  - intros H. vm_compute in H. discriminate.
  - vm_compute. reflexivity.
Defined.

(** X22.  Posting a role changes the desired set of a user only if the user's
    department, trimmed, is the name the role is posted under.  So a role
    posted under a name with whitespace at an end changes nothing for
    anybody. *)
Theorem X22_posted_role_reaches_its_department_only
    (department : string) (role_config : RoleMapping) (cfg : Policy)
    (user : StrDict) :
  IdentityEngine.desired_for_user
    (Rbac.create_or_update_role department role_config cfg) user
  ≠ IdentityEngine.desired_for_user cfg user →
  Py.strip (Py.or_empty (py_get user "department")) = department
  ∧ Py.strip department = department.
Proof.
  intros Hne.
  destruct (decide (Py.strip (Py.or_empty (py_get user "department")) = department))
    as [Heq|Hdiff].
  - split; [done|]. rewrite <-Heq. apply strip_strip.
  - destruct Hne. by apply create_role_frame.
Qed.

Lemma X22_posted_role_reaches_its_department_only_witness :
  let role_config :=
    mkRoleMapping (Some (mkSystemEntitlements (Some ["sales@x.com"]) None)) None in
  Py.strip (Py.or_empty (py_get Sample.remote_engineer "department")) = "Engineering"
  ∧ Py.strip "Engineering" = "Engineering".
Proof.
  intros role_config.
  apply (X22_posted_role_reaches_its_department_only "Engineering" role_config
           Sample.policy Sample.remote_engineer).
  intros H.
  assert (get_names
            (IdentityEngine.desired_for_user
               (Rbac.create_or_update_role "Engineering" role_config Sample.policy)
               Sample.remote_engineer) "google" "groups"
          = get_names
              (IdentityEngine.desired_for_user Sample.policy Sample.remote_engineer)
              "google" "groups") as H' by (by rewrite H).
  vm_compute in H'. discriminate.
Defined.

(** X23.  Deleting a role that was posted for a department without one gives
    back the policy as it was before the role was posted. *)
Theorem X23_delete_role_undoes_create_role
    (department : string) (role_config : RoleMapping) (cfg : Policy) :
  roles cfg !! department = None →
  Rbac.delete_role department
    (Rbac.create_or_update_role department role_config cfg)
  = Http200 cfg.
Proof.
  intros Hnone. unfold Rbac.delete_role, Rbac.create_or_update_role.
  cbn [roles rules]. rewrite lookup_insert_eq, delete_insert_id by done.
  by rewrite policy_eta.
Qed.

Lemma X23_delete_role_undoes_create_role_witness :
  Rbac.delete_role "Sales"
    (Rbac.create_or_update_role "Sales" (mkRoleMapping None None) Sample.policy)
  = Http200 Sample.policy.
Proof.
  apply (X23_delete_role_undoes_create_role "Sales" (mkRoleMapping None None)
           Sample.policy).
  vm_compute. reflexivity.
Defined.

(** X24.  Adding a rule takes no name from anybody: for a user who is not
    terminated the desired names afterwards are those of before and, when the
    new rule fires for the user, the groups and teams that the rule was posted
    with, each under the system and kind it was posted for. *)
Theorem X24_added_rule_adds_its_grants_and_takes_nothing
    (rule : ConditionalRule) (cfg : Policy) (user : StrDict) (sys k x : string) :
  ¬ is_terminated_user user →
  x ∈ get_names
        (IdentityEngine.desired_for_user (Rbac.add_conditional_rule rule cfg) user)
        sys k
  ↔ x ∈ get_names (IdentityEngine.desired_for_user cfg user) sys k
    ∨ (fires user (Rbac.rule_dict rule)
       ∧ ∃ entitlements,
           cr_grant rule !! sys = Some entitlements
           ∧ ((k = "groups" ∧ x ∈ Rbac.or_nil (se_groups entitlements))
              ∨ (k = "teams" ∧ x ∈ Rbac.or_nil (se_teams entitlements)))).
Proof.
  intros Hterm. rewrite !elem_of_desired by done.
  rewrite <-elem_of_rule_dict.
  unfold Rbac.add_conditional_rule, role_of. cbn [roles rules].
  setoid_rewrite elem_of_app. setoid_rewrite list_elem_of_singleton. split.
  - intros [?|(r & [?| ->] & ? & ?)]; [tauto| |tauto]. left. right. eauto.
  - intros [[?|(r & ? & ? & ?)]|[? ?]]; [tauto| |].
    + right. exists r. tauto.
    + right. exists (Rbac.rule_dict rule). tauto.
Qed.

Lemma X24_added_rule_adds_its_grants_and_takes_nothing_witness :
  let rule :=
    mkConditionalRule Sample.remote_predicate
      {[ "github" := mkSystemEntitlements None (Some ["vpn"]) ]} in
  "vpn" ∈ get_names
            (IdentityEngine.desired_for_user
               (Rbac.add_conditional_rule rule Sample.policy) Sample.remote_engineer)
            "github" "teams"
  ↔ "vpn" ∈ get_names
              (IdentityEngine.desired_for_user Sample.policy Sample.remote_engineer)
              "github" "teams"
    ∨ (fires Sample.remote_engineer (Rbac.rule_dict rule)
       ∧ ∃ entitlements,
           cr_grant rule !! "github" = Some entitlements
           ∧ (("teams" = "groups" ∧ "vpn" ∈ Rbac.or_nil (se_groups entitlements))
              ∨ ("teams" = "teams" ∧ "vpn" ∈ Rbac.or_nil (se_teams entitlements)))).
Proof.
  intros rule.
  apply (X24_added_rule_adds_its_grants_and_takes_nothing rule Sample.policy
           Sample.remote_engineer "github" "teams" "vpn").
  intros H. vm_compute in H. discriminate.
Defined.

(** X25.  Deleting a rule is refused with 404 when the index is negative or
    not less than the number of rules.  For any other index it succeeds: the
    policy then has the same roles and one rule less, and no user gets a name
    that the user did not have before. *)
Theorem X25_deleted_rule_gives_nobody_a_name (rule_index : Z) (cfg : Policy) :
  ((rule_index < 0)%Z ∨ (Z.of_nat (length (rules cfg)) ≤ rule_index)%Z →
   Rbac.delete_conditional_rule rule_index cfg = HttpError 404)
  ∧ ((0 ≤ rule_index < Z.of_nat (length (rules cfg)))%Z →
     ∃ cfg',
       Rbac.delete_conditional_rule rule_index cfg = Http200 cfg'
       ∧ roles cfg' = roles cfg
       ∧ length (rules cfg') + 1 = length (rules cfg)
       ∧ ∀ (user : StrDict) (sys k x : string),
           x ∈ get_names (IdentityEngine.desired_for_user cfg' user) sys k →
           x ∈ get_names (IdentityEngine.desired_for_user cfg user) sys k).
Proof.
  unfold Rbac.delete_conditional_rule. split.
  - intros Hout. by rewrite bool_decide_eq_true_2.
  - intros Hin. rewrite bool_decide_eq_false_2 by lia.
    eexists. split; [done|]. cbn [roles rules]. split; [done|]. split.
    + pose proof (length_delete (rules cfg) (Z.to_nat rule_index)) as Hlen.
      destruct (lookup_lt_is_Some_2 (rules cfg) (Z.to_nat rule_index)) as [r Hr];
        [lia|].
      specialize (Hlen (ex_intro _ r Hr)). lia.
    + intros user sys k x.
      destruct (decide (is_terminated_user user)) as [Hterm|Hterm].
      * unfold IdentityEngine.desired_for_user.
        by rewrite !bool_decide_eq_true_2 by exact Hterm.
      * rewrite !elem_of_desired by done. unfold role_of. cbn [roles rules].
        intros [?|(r & Hr & ? & ?)]; [by left|]. right. exists r.
        split; [|done]. by apply list_elem_of_delete_inv in Hr.
Qed.

(** ** The access review *)

Section review_facts.

Variable cfg : Policy.

Lemma plan_nil_iff (desired current : EntSet) :
  plan_changes desired current = []
  ↔ same_names (get_names desired "google" "groups")
               (get_names current "google" "groups")
    ∧ same_names (get_names desired "github" "teams")
                 (get_names current "github" "teams").
Proof.
  unfold plan_changes. cbv zeta. rewrite app_nil_l.
  rewrite <-!differences_empty, !app_nil, !fmap_change_nil. tauto.
Qed.




Lemma get_names_of_parts (w : World) (lg lh : loc) :
  get_names
    (deref w {[ "google" := {[ "groups" := lg ]}; "github" := {[ "teams" := lh ]} ]})
    "google" "groups" = read w lg
  ∧ get_names
      (deref w {[ "google" := {[ "groups" := lg ]}; "github" := {[ "teams" := lh ]} ]})
      "github" "teams" = read w lh.
Proof.
  unfold deref.
  rewrite fmap_insert, !map_fmap_singleton.
  generalize (read w lg) (read w lh). intros A B. by vm_compute.
Qed.

(** The review of a row that is found, step by step. *)
Lemma review_steps u w :
  let e := email u in
  let w2 := fetched e w in
  let desired := IdentityEngine.desired_for_user cfg (Rbac.user_dict u) in
  ∃ current,
    let changes := plan_changes desired (deref w2 current) in
    Rbac.get_user_access_review cfg (Some u) w
    = (Ok (Http200
             (mkAccessReview desired current changes
                (if bool_decide (changes = []) then "compliant"
                 else "needs_changes"))), w2)
    ∧ get_names (deref w2 current) "google" "groups" = on_record Google e w
    ∧ get_names (deref w2 current) "github" "teams" = on_record GitHub e w.
Proof.
  intros e w2 desired. unfold Rbac.get_user_access_review.
  fold desired. fold e.
  destruct (fetch_returns Google e w) as (lg & Hg & Hrg).
  set (w1 := (Mock.fetch_current Google e w).2) in *.
  destruct (fetch_returns GitHub e w1) as (lh & Hh & Hrh).
  fold (fetched e w) in Hh, Hrh. fold w2 in Hh, Hrh.
  rewrite (bind_Ok _ _ w _ w1) by (simpl; unfold lift; by rewrite Hg).
  rewrite (bind_Ok _ _ w1 _ w2) by (simpl; unfold lift; by rewrite Hh).
  rewrite (bind_Ok _ _ w2 {[ "groups" := lg ]} w2) by done.
  rewrite (bind_Ok _ _ w2 {[ "teams" := lh ]} w2) by done.
  rewrite (bind_Ok _ _ w2 w2 w2) by done.
  destruct (get_names_of_parts w2 lg lh) as [Hcg Hch].
  eexists. cbv zeta. split; [done|]. split.
  - rewrite Hcg. unfold w2, fetched. rewrite read_fetch. exact Hrg.
  - rewrite Hch. exact (eq_trans Hrh (proj2 (fetch_frame Google e w GitHub e))).
Qed.

End review_facts.

(** X26.  The access review of a row that is found never raises and changes
    no record.  It reports [compliant] exactly when the Google adapter has on
    record the set of groups that the policy wants for the row and the GitHub
    adapter the set of teams it wants, and [needs_changes] otherwise. *)
Theorem X26_access_review_compares_policy_and_records
    (cfg : Policy) (u : User) (w : World) :
  ∃ review w',
    Rbac.get_user_access_review cfg (Some u) w = (Ok (Http200 review), w')
    ∧ (review_compliance_status review = "compliant"
       ↔ same_names
           (get_names (IdentityEngine.desired_for_user cfg (Rbac.user_dict u))
              "google" "groups")
           (on_record Google (email u) w)
         ∧ same_names
             (get_names (IdentityEngine.desired_for_user cfg (Rbac.user_dict u))
                "github" "teams")
             (on_record GitHub (email u) w))
    ∧ (review_compliance_status review ≠ "compliant" →
       review_compliance_status review = "needs_changes")
    ∧ ∀ a user_email,
        Mock._STATE a w' = Mock._STATE a w
        ∧ on_record a user_email w' = on_record a user_email w.
Proof.
  destruct (review_steps cfg u w) as (current & Hrun & Hcg & Hch).
  cbv zeta in Hrun. eexists _, _. split; [exact Hrun|].
  cbn [review_compliance_status]. split; [|split].
  - rewrite <-Hcg, <-Hch, <-plan_nil_iff.
    case_bool_decide as Hplan; [done|]. split; [done|]. intros H. by destruct Hplan.
  - by case_bool_decide.
  - intros a user_email. apply fetched_frame.
Qed.



(** ** The update of the policy and its preview *)

Section update_facts.

Implicit Types (cfg temp : Policy) (posted : gmap string RoleMapping).

Lemma update_roles_empty (rs : gmap string Grant) : Rbac.update_roles ∅ rs = rs.
Proof. unfold Rbac.update_roles. apply map_fold_empty. Qed.

Lemma lookup_update_roles posted (rs : gmap string Grant) dept :
  Rbac.update_roles posted rs !! dept
  = match posted !! dept with
    | Some role_config =>
        Some (Rbac.merge_role role_config (default ∅ (rs !! dept)))
    | None => rs !! dept
    end.
Proof.
  unfold Rbac.update_roles.
  apply (map_fold_weak_ind
           (λ (r : gmap string Grant) (m : gmap string RoleMapping),
              r !! dept
              = match m !! dept with
                | Some role_config =>
                    Some (Rbac.merge_role role_config (default ∅ (rs !! dept)))
                | None => rs !! dept
                end)).
  - by rewrite lookup_empty.
  - intros i rc m r Hi IH.
    destruct (decide (i = dept)) as [->|Hne].
    + rewrite !lookup_insert_eq. rewrite Hi in IH. by rewrite IH.
    + by rewrite !lookup_insert_ne.
Qed.

Lemma preview_cfg_update policy_update cfg :
  (pu_rules policy_update = Some [] → rules cfg = []) →
  Rbac.preview_cfg policy_update cfg = Rbac.update_rbac_policies policy_update cfg.
Proof.
  intros Hrules. unfold Rbac.preview_cfg, Rbac.update_rbac_policies. f_equal.
  - destruct (pu_roles policy_update) as [posted|]; [|done].
    case_bool_decide as Hempty; [|done]. subst. by rewrite update_roles_empty.
  - destruct (pu_rules policy_update) as [[|rule posted]|]; [|done|done].
    by rewrite Hrules.
Qed.

Lemma preview_loop cfg temp users acc :
  foldl (Rbac.preview_user cfg temp) acc users
  = (acc.1 + length (filter (affected cfg temp) users),
     acc.2 ++ (impact_of cfg temp <$> filter (affected cfg temp) users)).
Proof.
  revert acc. induction users as [|user users IH]; intros [n changes].
  - simpl. by rewrite Nat.add_0_r, app_nil_r.
  - simpl foldl. rewrite IH, filter_cons.
    destruct (decide (affected cfg temp user)) as [Ha|Ha].
    + unfold Rbac.preview_user. rewrite bool_decide_eq_true_2 by exact Ha.
      cbn [fst snd]. rewrite fmap_cons, <-(assoc_L (++)). simpl.
      f_equal. lia.
    + unfold Rbac.preview_user. by rewrite bool_decide_eq_false_2 by exact Ha.
Qed.

End update_facts.

(** X28.  Unless an empty list of rules is posted for a policy that has
    rules, the preview tells what the update with the same body would do: it
    lists, in the order of the users tested, exactly those whose desired set
    the saved policy would change, each with the old set, the new set and the
    plan from the old to the new, and it counts them. *)
Theorem X28_preview_lists_the_users_the_update_would_change
    (policy_update : PolicyUpdate) (cfg : Policy) (users : list User) :
  (pu_rules policy_update = Some [] → rules cfg = []) →
  let after := Rbac.update_rbac_policies policy_update cfg in
  let preview := Rbac.preview_policy_impact policy_update cfg users in
  total_users_tested preview = length users
  ∧ users_affected preview = length (filter (affected cfg after) users)
  ∧ changes_by_user preview
    = impact_of cfg after <$> filter (affected cfg after) users.
Proof.
  intros Hrules after preview. unfold preview, Rbac.preview_policy_impact.
  rewrite preview_cfg_update by done. fold after.
  rewrite preview_loop. done.
Qed.

Lemma X28_preview_lists_the_users_the_update_would_change_witness :
  let policy_update :=
    mkPolicyUpdate None
      (Some [mkConditionalRule Sample.remote_predicate
               {[ "github" := mkSystemEntitlements None (Some ["vpn"]) ]}]) in
  let users := [Sample.engineer_row "Active"] in
  let after := Rbac.update_rbac_policies policy_update Sample.policy in
  let preview := Rbac.preview_policy_impact policy_update Sample.policy users in
  total_users_tested preview = length users
  ∧ users_affected preview = length (filter (affected Sample.policy after) users)
  ∧ changes_by_user preview
    = impact_of Sample.policy after <$> filter (affected Sample.policy after) users.
Proof.
  intros policy_update users.
  apply (X28_preview_lists_the_users_the_update_would_change policy_update
           Sample.policy users).
  intros H. discriminate H.
Defined.

(** X29.  The preview takes a posted empty list of rules for no list at all,
    and so reports no user affected when nothing else is posted; the update
    with the same body saves a policy without any rule. *)
Theorem X29_preview_takes_an_empty_rule_list_for_none
    (policy_update : PolicyUpdate) (cfg : Policy) (users : list User) :
  pu_rules policy_update = Some [] →
  Rbac.preview_policy_impact policy_update cfg users
  = Rbac.preview_policy_impact (mkPolicyUpdate (pu_roles policy_update) None)
      cfg users
  ∧ (pu_roles policy_update = None →
     users_affected (Rbac.preview_policy_impact policy_update cfg users) = 0
     ∧ changes_by_user (Rbac.preview_policy_impact policy_update cfg users) = [])
  ∧ rules (Rbac.update_rbac_policies policy_update cfg) = [].
Proof.
  intros Hrules. split; [|split].
  - unfold Rbac.preview_policy_impact, Rbac.preview_cfg. cbn [pu_roles pu_rules].
    by rewrite Hrules.
  - intros Hroles. unfold Rbac.preview_policy_impact, Rbac.preview_cfg.
    rewrite Hrules, Hroles, policy_eta, preview_loop.
    assert (filter (affected cfg cfg) users = []) as ->; [|done].
    induction users as [|user users IH]; [done|].
    rewrite filter_cons, decide_False; [done|]. intros Ha. by apply Ha.
  - unfold Rbac.update_rbac_policies. cbn [rules]. by rewrite Hrules.
Qed.

Lemma X29_preview_takes_an_empty_rule_list_for_none_witness :
  let policy_update := mkPolicyUpdate None (Some []) in
  let users := [Sample.engineer_row "Active"] in
  Rbac.preview_policy_impact policy_update Sample.policy users
  = Rbac.preview_policy_impact (mkPolicyUpdate None None) Sample.policy users
  ∧ (pu_roles policy_update = None →
     users_affected (Rbac.preview_policy_impact policy_update Sample.policy users)
     = 0
     ∧ changes_by_user
         (Rbac.preview_policy_impact policy_update Sample.policy users) = [])
  ∧ rules (Rbac.update_rbac_policies policy_update Sample.policy) = [].
Proof.
  intros policy_update users.
  apply (X29_preview_takes_an_empty_rule_list_for_none policy_update
           Sample.policy users).
  reflexivity.
Defined.

(** X30.  The update of the policy merges a posted role into the role the
    department has: the side that is not posted, Google or GitHub, stays as it
    is.  Posting the same role for the department alone replaces the role:
    the side that is not posted is left empty. *)
Theorem X30_update_merges_a_role_where_posting_replaces_it
    (posted : gmap string RoleMapping) (posted_rules : option (list ConditionalRule))
    (department : string) (role_config : RoleMapping) (cfg : Policy) :
  posted !! department = Some role_config →
  let old := default ∅ (roles cfg !! department) in
  let merged :=
    default ∅
      (roles (Rbac.update_rbac_policies (mkPolicyUpdate (Some posted) posted_rules) cfg)
       !! department) in
  let replaced :=
    default ∅
      (roles (Rbac.create_or_update_role department role_config cfg) !! department) in
  (rm_google role_config = None →
   get_names merged "google" "groups" = get_names old "google" "groups"
   ∧ get_names replaced "google" "groups" = [])
  ∧ (rm_github role_config = None →
     get_names merged "github" "teams" = get_names old "github" "teams"
     ∧ get_names replaced "github" "teams" = []).
Proof.
  intros Hposted old merged replaced.
  assert (merged = Rbac.merge_role role_config old) as ->.
  { unfold merged, Rbac.update_rbac_policies. cbn [roles pu_roles].
    by rewrite lookup_update_roles, Hposted. }
  assert (replaced = Rbac.role_dict role_config) as ->.
  { unfold replaced, Rbac.create_or_update_role. cbn [roles].
    by rewrite lookup_insert_eq. }
  destruct (get_names_role_dict role_config) as [Hg Ht].
  rewrite Hg, Ht. unfold Rbac.posted_groups, Rbac.posted_teams, Rbac.merge_role.
  split; intros ->; (split; [|done]).
  - destruct (rm_github role_config); [|done].
    unfold get_names. by rewrite lookup_insert_ne.
  - destruct (rm_google role_config); [|done].
    unfold get_names. by rewrite lookup_insert_ne.
Qed.

Lemma X30_update_merges_a_role_where_posting_replaces_it_witness :
  let role_config :=
    mkRoleMapping None (Some (mkSystemEntitlements None (Some ["backend"]))) in
  let posted : gmap string RoleMapping := {[ "Engineering" := role_config ]} in
  let old := default ∅ (roles Sample.policy !! "Engineering") in
  let merged :=
    default ∅
      (roles (Rbac.update_rbac_policies (mkPolicyUpdate (Some posted) None)
                Sample.policy)
       !! "Engineering") in
  let replaced :=
    default ∅
      (roles (Rbac.create_or_update_role "Engineering" role_config Sample.policy)
       !! "Engineering") in
  get_names old "google" "groups" = ["eng@x.com"]
  ∧ (rm_google role_config = None →
     get_names merged "google" "groups" = get_names old "google" "groups"
     ∧ get_names replaced "google" "groups" = [])
  ∧ (rm_github role_config = None →
     get_names merged "github" "teams" = get_names old "github" "teams"
     ∧ get_names replaced "github" "teams" = []).
Proof.
  intros role_config posted. split; [vm_compute; reflexivity|].
  apply (X30_update_merges_a_role_where_posting_replaces_it posted None
           "Engineering" role_config Sample.policy).
  vm_compute. reflexivity.
Defined.
